(** * Copilot Studio chat control (GA): conversation synchronisation and
      voice coordination

    A shallow embedding of the Direct Line client
    ([services/CopilotChatService.ts]), the persistence helpers
    ([utils/storage.ts]), the control bootstrap ([Control.tsx],
    [initializeChat]) and the chat window ([ChatWindow.tsx]: the polling
    callback, the speech walk, the recognition handlers and the button
    handlers), followed by the properties proved about them.

    Conventions.
    - JavaScript strings are [string]; [undefined]/[null] is [None].
      [a || b] on strings is [orElse]; truthiness of a string is [truthy].
    - A [Set<string>] is a [gset string].
    - The browser and the network are external: every call made to them is
      appended to a trace of [Effect]s, and every answer they give is an
      input of the function or event that consumes it.
    - The event loop is single-threaded: a handler runs to its next [await]
      without interleaving.  An [async] function suspended at an [await] is
      kept in the state as a continuation and resumed by the event that
      settles the awaited promise.
    - A React handler sees the state of the render that created it.  The
      recognition handlers are installed by an effect that depends on
      [drivingMode] only, so the [isSending] they see is the one recorded
      at that moment ([handlerIsSending]).
    - [Math.random().toString()] is the next value of a stream of draws
      carried by the environment.

    Scope.  File upload, card actions, the sign-in flow, audio unlocking,
    the thinking sound, settings persistence and rendering are left out;
    [trim] and [toLowerCase] cover the ASCII range; a recognition
    confidence is a rational (no NaN). *)

From Stdlib Require Import Ascii String QArith.
From stdpp Require Import gmap strings list.

Open Scope string_scope.
Open Scope list_scope.

(** ** JavaScript strings *)

Definition truthy (s : string) : bool := negb (String.eqb s "").

Definition truthyOpt (o : option string) : bool :=
  match o with Some s => truthy s | None => false end.

(** [o || d] where [o] is an optional string. *)
Definition orElse (o : option string) (d : string) : string :=
  match o with
  | Some s => if truthy s then s else d
  | None => d
  end.

(** [Array.prototype.join]. *)
Fixpoint array_join (sep : string) (l : list string) : string :=
  match l with
  | [] => ""
  | [x] => x
  | x :: rest => x +:+ sep +:+ array_join sep rest
  end.

(** White space removed by [String.prototype.trim], restricted to the
    ASCII range (tab, line feed, vertical tab, form feed, carriage return,
    space). *)
Definition isWhitespace (c : ascii) : bool :=
  let n := nat_of_ascii c in
  Nat.eqb n 32 || (Nat.leb 9 n && Nat.leb n 13).

Fixpoint trimStart (s : string) : string :=
  match s with
  | EmptyString => EmptyString
  | String c r => if isWhitespace c then trimStart r else s
  end.

Fixpoint trimEnd (s : string) : string :=
  match s with
  | EmptyString => EmptyString
  | String c r =>
      match trimEnd r with
      | EmptyString => if isWhitespace c then EmptyString else String c EmptyString
      | r' => String c r'
      end
  end.

Definition trim (s : string) : string := trimEnd (trimStart s).

(** [String.prototype.toLowerCase] on the ASCII letters. *)
Definition lowerChar (c : ascii) : ascii :=
  let n := nat_of_ascii c in
  if Nat.leb 65 n && Nat.leb n 90 then ascii_of_nat (n + 32) else c.

Fixpoint toLowerCase (s : string) : string :=
  match s with
  | EmptyString => EmptyString
  | String c r => String (lowerChar c) (toLowerCase r)
  end.

(** [Array.prototype.includes] on an array of strings. *)
Definition includes (l : list string) (x : string) : bool :=
  existsb (String.eqb x) l.

(** ** Direct Line activities ([CopilotChatService.ts], [interface Activity]) *)

Record Button := { btn_value : string }.

Record BodyItem := { item_text : option string }.

Record CardContent := {
  card_buttons : option (list Button);
  card_body : option (list BodyItem);
  card_speak : option string
}.

Record ActivityAttachment := {
  att_contentType : string;
  att_content : option CardContent
}.

Record Activity := {
  act_id : option string;
  act_type : string;
  act_from : string;
  act_text : option string;
  act_timestamp : option string;
  act_attachments : option (list ActivityAttachment);
  act_silentGreeting : option bool
}.

(** What the client posts to the conversation. *)
Inductive Outbound :=
| OutNothing
| OutMessage (text : string) (silentGreeting : bool)
| OutConversationUpdate.

(** ** Calls on external collaborators *)

Inductive Effect :=
| FetchGet (url : string)
| FetchPost (url : string) (body : Outbound)
| StorageSet (key : string)
| StorageRemove (key : string)
| ConsoleError (msg : string)
| Alert (msg : string)
| Speak (text : string)
| SpeechStop
| SpeechPause
| SpeechResume
| RecognitionStart
| RecognitionStop
| SetTimeout (handle delay : nat)
| ClearTimeout (handle : nat).

(** An HTTP answer: the status line and the parsed JSON body when it has
    the shape the caller expects ([None]: [response.json()] rejects or the
    fields the caller dereferences are missing). *)
Record HttpResponse (B : Type) := {
  status : Z;
  statusText : string;
  json : option B
}.
Arguments status {B} _.
Arguments statusText {B} _.
Arguments json {B} _.

(** The settlement of a [fetch]: [None] when the promise rejects. *)
Definition Fetched (B : Type) : Type := option (HttpResponse B).

(** [Response.ok]. *)
Definition ok {B} (r : HttpResponse B) : bool :=
  (200 <=? status r)%Z && (status r <=? 299)%Z.

(** The completion of a call that may throw. *)
Inductive Completion (A : Type) :=
| Returned (a : A)
| Thrown (message : string).
Arguments Returned {A} _.
Arguments Thrown {A} _.

(** ** Persistence ([utils/storage.ts]) *)

Definition KEY_MESSAGES : string := "copilot_chat_messages".
Definition KEY_CONVERSATION : string := "copilot_chat_conversation".

Record ConversationState := {
  cs_conversationId : string;
  cs_watermark : option string;
  cs_savedAt : Z
}.

Definition CONVERSATION_EXPIRY_MS : Z := 30 * 60 * 1000.

Inductive JsDate :=
| DateOf (iso : string)
| DateAt (ms : Z).

Record StoredMessage := {
  sm_id : string;
  sm_text : string;
  sm_isUser : bool;
  sm_timestamp : string;
  sm_speakText : option string;
  sm_adaptiveCard : option CardContent;
  sm_isSignInCard : option bool;
  sm_signInUrl : option string
}.

(** The two [localStorage] entries the modelled code reads or removes; each
    holds what this program last wrote there, already parsed. *)
Record LocalStorage := {
  ls_messages : option (list StoredMessage);
  ls_conversation : option ConversationState
}.

Definition saveConversationState (conversationId : string)
    (watermark : option string) (now : Z) (ls : LocalStorage)
    : LocalStorage * list Effect :=
  ({| ls_messages := ls_messages ls;
      ls_conversation :=
        Some {| cs_conversationId := conversationId;
                cs_watermark := watermark;
                cs_savedAt := now |} |},
   [StorageSet KEY_CONVERSATION]).

Definition clearConversationState (ls : LocalStorage)
    : LocalStorage * list Effect :=
  ({| ls_messages := ls_messages ls; ls_conversation := None |},
   [StorageRemove KEY_CONVERSATION]).

Definition clearMessages (ls : LocalStorage) : LocalStorage * list Effect :=
  ({| ls_messages := None; ls_conversation := ls_conversation ls |},
   [StorageRemove KEY_MESSAGES]).

Definition loadMessages (ls : LocalStorage) : list StoredMessage :=
  match ls_messages ls with
  | Some l => l
  | None => []
  end.

Definition loadConversationState (now : Z) (ls : LocalStorage)
    : option ConversationState * LocalStorage * list Effect :=
  match ls_conversation ls with
  | Some state =>
      let age := (now - cs_savedAt state)%Z in
      if (age <? CONVERSATION_EXPIRY_MS)%Z then (Some state, ls, [])
      else
        let '(ls', eff) := clearConversationState ls in
        (None, ls', eff)
  | None => (None, ls, [])
  end.

(** ** The Direct Line client ([class CopilotChatService]) *)

Inductive StateChangeCallback := PersistConversation.

Record CopilotChatService := {
  secret : string;
  baseUrl : string;
  conversationId : option string;
  watermark : option string;
  onStateChange : option StateChangeCallback
}.

Definition DEFAULT_ENDPOINT : string :=
  "https://directline.botframework.com/v3/directline".

Definition newService (secret_ : string) (endpoint : option string)
    : CopilotChatService :=
  {| secret := secret_;
     baseUrl := orElse endpoint DEFAULT_ENDPOINT;
     conversationId := None;
     watermark := None;
     onStateChange := None |}.

Definition setStateChangeCallback (cb : StateChangeCallback)
    (svc : CopilotChatService) : CopilotChatService :=
  {| secret := secret svc; baseUrl := baseUrl svc;
     conversationId := conversationId svc; watermark := watermark svc;
     onStateChange := Some cb |}.

Definition withConversation (cid : option string) (wm : option string)
    (svc : CopilotChatService) : CopilotChatService :=
  {| secret := secret svc; baseUrl := baseUrl svc;
     conversationId := cid; watermark := wm;
     onStateChange := onStateChange svc |}.

(** The activities URL: the watermark is appended only when it is truthy. *)
Definition activitiesUrl (base conversation : string) (wm : option string)
    : string :=
  match wm with
  | Some w =>
      if truthy w
      then base +:+ "/conversations/" +:+ conversation
             +:+ "/activities?watermark=" +:+ w
      else base +:+ "/conversations/" +:+ conversation +:+ "/activities"
  | None => base +:+ "/conversations/" +:+ conversation +:+ "/activities"
  end.

(** [this.onStateChange(conversationId, watermark)]: the only callback the
    control installs is [saveConversationState]. *)
Definition notifyStateChange (svc : CopilotChatService) (cid : string)
    (now : Z) (ls : LocalStorage) : LocalStorage * list Effect :=
  match onStateChange svc with
  | Some PersistConversation => saveConversationState cid (watermark svc) now ls
  | None => (ls, [])
  end.



(** The body of a successful [GET .../activities]. *)
Record ActivitySet := {
  activities : list Activity;
  set_watermark : string
}.

(** The filter at the end of [getMessages]: bot messages only. *)
Definition isBotMessage (activity : Activity) : bool :=
  if String.eqb (act_from activity) "user" then false
  else if negb (String.eqb (act_type activity) "message") then false
  else match act_silentGreeting activity with
       | Some true => false
       | _ => true
       end.

(** [getMessages()], given the settlement of its [fetch]. *)
Definition getMessages (poll : Fetched ActivitySet) (now : Z)
    (svc : CopilotChatService) (ls : LocalStorage)
    : Completion (list Activity) * CopilotChatService * LocalStorage
      * list Effect :=
  match conversationId svc with
  | None => (Thrown "Conversation not started", svc, ls, [])
  | Some cid =>
      let request := FetchGet (activitiesUrl (baseUrl svc) cid (watermark svc)) in
      match poll with
      | Some response =>
          if ok response then
            match json response with
            | Some data =>
                let svc' :=
                  withConversation (Some cid) (Some (set_watermark data)) svc in
                let '(ls', eff) := notifyStateChange svc' cid now ls in
                (Returned (List.filter isBotMessage (activities data)),
                 svc', ls', request :: eff)
            | None => (Thrown "invalid JSON", svc, ls, [request])
            end
          else
            (Thrown ("Failed to get messages: " +:+ statusText response),
             svc, ls, [request])
      | None => (Thrown "fetch failed", svc, ls, [request])
      end
  end.

(** [sendMessage(text)]: the synchronous prefix up to the [POST]. *)
Definition sendMessageRequest (text : string) (svc : CopilotChatService)
    : Completion Effect :=
  match conversationId svc with
  | None => Thrown "Conversation not started"
  | Some cid =>
      Returned (FetchPost (baseUrl svc +:+ "/conversations/" +:+ cid
                             +:+ "/activities")
                          (OutMessage text false))
  end.

(** The answers the transport gives during one wake handshake. *)
Record Handshake := {
  hs_update : Fetched unit;
  hs_check : Fetched (list Activity);
  hs_greeting : Fetched unit
}.

(** [triggerConversationStart()]: a conversation update, a two-second
    wait, a check for a bot message, and the hidden greeting as fallback. *)
Definition triggerConversationStart (hs : Handshake)
    (svc : CopilotChatService) : Completion unit * list Effect :=
  match conversationId svc with
  | None => (Thrown "Conversation not started", [])
  | Some cid =>
      let url := baseUrl svc +:+ "/conversations/" +:+ cid +:+ "/activities" in
      let update := FetchPost url OutConversationUpdate in
      let fallback (before : list Effect) :=
        let greeting := FetchPost url (OutMessage "Hi" true) in
        match hs_greeting hs with
        | Some response =>
            if ok response then (Returned tt, before ++ [greeting])
            else
              (Thrown ("Failed to send greeting: " +:+ statusText response),
               before ++ [greeting; ConsoleError "Hidden greeting message failed"])
        | None => (Thrown "fetch failed", before ++ [greeting])
        end in
      match hs_update hs with
      | Some response =>
          if ok response then
            match hs_check hs with
            | Some check =>
                if ok check then
                  match json check with
                  | Some acts =>
                      let botMessages :=
                        List.filter
                          (fun a => negb (String.eqb (act_from a) "user")
                                    && String.eqb (act_type a) "message")
                          acts in
                      if (0 <? length botMessages)%nat
                      then (Returned tt, [update; FetchGet url])
                      else fallback [update; FetchGet url]
                  | None => fallback [update; FetchGet url]
                  end
                else fallback [update; FetchGet url]
            | None => fallback [update; FetchGet url]
            end
          else fallback [update]
      | None => fallback [update]
      end
  end.

(** ** The control bootstrap ([Control.tsx], [initializeChat]) *)




(** ** Chat messages ([ChatWindow.tsx], [interface Message]) *)

Record AttachmentInfo := { ai_name : string; ai_type : string }.

Record Message := {
  msg_id : string;
  msg_text : string;
  msg_isUser : bool;
  msg_timestamp : JsDate;
  msg_speakText : option string;
  msg_adaptiveCard : option CardContent;
  msg_isSignInCard : option bool;
  msg_signInUrl : option string;
  msg_attachments : option (list AttachmentInfo)
}.

Definition fromStoredMessage (stored : StoredMessage) : Message :=
  {| msg_id := sm_id stored;
     msg_text := sm_text stored;
     msg_isUser := sm_isUser stored;
     msg_timestamp := DateOf (sm_timestamp stored);
     msg_speakText := sm_speakText stored;
     msg_adaptiveCard := sm_adaptiveCard stored;
     msg_isSignInCard := sm_isSignInCard stored;
     msg_signInUrl := sm_signInUrl stored;
     msg_attachments := None |}.

(** ** The mapper: the [.map] callback of [pollMessages] *)

Definition CARD_OAUTH : string := "application/vnd.microsoft.card.oauth".
Definition CARD_SIGNIN : string := "application/vnd.microsoft.card.signin".
Definition CARD_ADAPTIVE : string := "application/vnd.microsoft.card.adaptive".

(** [body.map(item => item.text || '').filter(text => text)]. *)
Definition bodyTexts (body : list BodyItem) : list string :=
  List.filter truthy (List.map (fun item => orElse (item_text item) "") body).

(** [adaptiveCard.body && adaptiveCard.body.length > 0]. *)
Definition nonEmptyBody (card : CardContent) : option (list BodyItem) :=
  match card_body card with
  | Some (item :: items) => Some (item :: items)
  | _ => None
  end.

(** The locals of the callback after the attachment has been inspected. *)
Record Extracted := {
  messageText : string;
  signInUrl : option string;
  isSignInCard : bool;
  adaptiveCard : option CardContent;
  speakText : string
}.

Definition plainText (text : string) : Extracted :=
  {| messageText := text; signInUrl := None; isSignInCard := false;
     adaptiveCard := None; speakText := "" |}.

Definition extract (activity : Activity) : Extracted :=
  let messageText0 := orElse (act_text activity) "" in
  match act_attachments activity with
  | Some (attachment :: _) =>
      if String.eqb (att_contentType attachment) CARD_OAUTH
         || String.eqb (att_contentType attachment) CARD_SIGNIN
      then
        {| messageText := "Authentication required";
           signInUrl :=
             match att_content attachment with
             | Some content =>
                 match card_buttons content with
                 | Some (button :: _) => Some (btn_value button)
                 | _ => None
                 end
             | None => None
             end;
           isSignInCard := true;
           adaptiveCard := None;
           speakText := "" |}
      else
        match att_content attachment with
        | Some card =>
            if String.eqb (att_contentType attachment) CARD_ADAPTIVE then
              {| messageText :=
                   if negb (truthy messageText0) then
                     match nonEmptyBody card with
                     | Some body => array_join " " (bodyTexts body)
                     | None => messageText0
                     end
                   else messageText0;
                 signInUrl := None;
                 isSignInCard := false;
                 adaptiveCard := Some card;
                 speakText :=
                   if truthyOpt (card_speak card) then orElse (card_speak card) ""
                   else
                     match nonEmptyBody card with
                     | Some body => array_join ". " (bodyTexts body)
                     | None => ""
                     end |}
            else plainText messageText0
        | None => plainText messageText0
        end
  | _ => plainText messageText0
  end.

(** The object the callback returns; [freshId] is what
    [Math.random().toString()] yields and [now] what [new Date()] reads,
    each used only when the activity lacks the field. *)
Definition mapActivity (freshId : string) (now : Z) (activity : Activity)
    : Message :=
  let x := extract activity in
  {| msg_id := orElse (act_id activity) freshId;
     msg_text := messageText x;
     msg_isUser := false;
     msg_timestamp :=
       match act_timestamp activity with
       | Some ts => if truthy ts then DateOf ts else DateAt now
       | None => DateAt now
       end;
     msg_speakText :=
       Some (if truthy (speakText x) then speakText x else messageText x);
     msg_adaptiveCard := adaptiveCard x;
     msg_isSignInCard := Some (isSignInCard x);
     msg_signInUrl := signInUrl x;
     msg_attachments := None |}.

(** The last [.filter]: [msg.text || msg.isSignInCard || msg.adaptiveCard]. *)
Definition hasContent (msg : Message) : bool :=
  truthy (msg_text msg)
  || match msg_isSignInCard msg with Some b => b | None => false end
  || match msg_adaptiveCard msg with Some _ => true | None => false end.

(** The key under which an activity is de-duplicated: [activity.id || '']. *)
Definition messageKey (activity : Activity) : string :=
  orElse (act_id activity) "".

(** The first [.filter]: skip what [seenMessageIds] holds, record the rest.
    Returns the activities kept and the set as the callback leaves it. *)
Fixpoint dedupe (seen : gset string) (acts : list Activity)
    : list Activity * gset string :=
  match acts with
  | [] => ([], seen)
  | activity :: rest =>
      if bool_decide (messageKey activity ∈ seen) then dedupe seen rest
      else
        let '(kept, seen') := dedupe ({[messageKey activity]} ∪ seen) rest in
        (activity :: kept, seen')
  end.

(** [msg.speakText] is truthy. *)
Definition speakable (m : Message) : bool := truthyOpt (msg_speakText m).

(** The loop that builds [unspokenMessages] and marks them spoken. *)
Fixpoint collectUnspoken (spoken : gset string) (msgs : list Message)
    : list Message * gset string :=
  match msgs with
  | [] => ([], spoken)
  | msg :: rest =>
      if speakable msg && negb (bool_decide (msg_id msg ∈ spoken))
      then
        let '(unspoken, spoken') :=
          collectUnspoken ({[msg_id msg]} ∪ spoken) rest in
        (msg :: unspoken, spoken')
      else collectUnspoken spoken rest
  end.

(** ** The chat window's state *)

(** The values held by [React.useState]. *)
Record Ui := mkUi {
  messages : list Message;
  inputText : string;
  isSending : bool;
  isListening : bool;
  isMuted : bool;
  drivingMode : bool;
  isPlaying : bool;
  isPaused : bool;
  isTyping : bool;
  transcribedText : string;
  lastUserInput : string;
  lastBotResponse : string
}.

(** The values held by [React.useRef]. *)
Record Refs := mkRefs {
  autoSendTimerRef : option nat;
  hasGreeted : bool;
  seenMessageIds : gset string;
  spokenMessageIds : gset string;
  isSpeakingRef : bool;
  cancelSpeechRef : bool
}.

(** What a pending [setTimeout] will run.  [AutoSend] carries the
    transcript and the [isSending] its [sendMessage] closure captured. *)
Inductive TimerAction :=
| AutoSend (transcript : string) (capturedIsSending : bool)
| ResetCancel
| DrivingModeRestart
| RestartConversation.

Record Timer := { t_delay : nat; t_action : TimerAction }.

(** A speech walk suspended at [await speakRef.current(...)]: the messages
    still to be spoken after the current one, and the [drivingMode] its
    closure captured. *)
Record Walk := { w_rest : list Message; w_drivingMode : bool }.

(** A [sendMessage] suspended at [await chatService.sendMessage(text)];
    [ps_auto] tells whether the auto-send callback chained its own
    [.finally] on it. *)
Record PendingSend := { ps_auto : bool }.

(** Everything outside the component: the service object, the browser's
    storage, clock, timer table and recogniser, the suspended [async]
    functions, the values [Math.random().toString()] yields ([random n] is
    the n-th draw) with the number of draws so far, and the trace. *)
Record Env := mkEnv {
  chatService : CopilotChatService;
  localStorage : LocalStorage;
  clock : Z;
  recognitionRef : bool;
  handlerIsSending : bool;
  timers : gmap nat Timer;
  nextTimer : nat;
  walks : gmap nat Walk;
  nextWalk : nat;
  sends : gmap nat PendingSend;
  nextSend : nat;
  random : nat -> string;
  randomCalls : nat;
  effects : list Effect
}.

Record State := mkState { ui : Ui; refs : Refs; env : Env }.

(** Field updates, named after the React setters where there is one. *)

Definition setMessages (f : list Message -> list Message) (s : State) : State :=
  {| ui := {|
        messages := f (messages (ui s)); inputText := inputText (ui s);
        isSending := isSending (ui s); isListening := isListening (ui s);
        isMuted := isMuted (ui s); drivingMode := drivingMode (ui s);
        isPlaying := isPlaying (ui s); isPaused := isPaused (ui s);
        isTyping := isTyping (ui s);
        transcribedText := transcribedText (ui s);
        lastUserInput := lastUserInput (ui s);
        lastBotResponse := lastBotResponse (ui s) |};
     refs := refs s;
     env := env s |}.

Definition setInputText (x : string) (s : State) : State :=
  {| ui := {|
        messages := messages (ui s); inputText := x;
        isSending := isSending (ui s); isListening := isListening (ui s);
        isMuted := isMuted (ui s); drivingMode := drivingMode (ui s);
        isPlaying := isPlaying (ui s); isPaused := isPaused (ui s);
        isTyping := isTyping (ui s);
        transcribedText := transcribedText (ui s);
        lastUserInput := lastUserInput (ui s);
        lastBotResponse := lastBotResponse (ui s) |};
     refs := refs s;
     env := env s |}.

Definition setIsSending (x : bool) (s : State) : State :=
  {| ui := {|
        messages := messages (ui s); inputText := inputText (ui s);
        isSending := x; isListening := isListening (ui s);
        isMuted := isMuted (ui s); drivingMode := drivingMode (ui s);
        isPlaying := isPlaying (ui s); isPaused := isPaused (ui s);
        isTyping := isTyping (ui s);
        transcribedText := transcribedText (ui s);
        lastUserInput := lastUserInput (ui s);
        lastBotResponse := lastBotResponse (ui s) |};
     refs := refs s;
     env := env s |}.

Definition setIsListening (x : bool) (s : State) : State :=
  {| ui := {|
        messages := messages (ui s); inputText := inputText (ui s);
        isSending := isSending (ui s); isListening := x;
        isMuted := isMuted (ui s); drivingMode := drivingMode (ui s);
        isPlaying := isPlaying (ui s); isPaused := isPaused (ui s);
        isTyping := isTyping (ui s);
        transcribedText := transcribedText (ui s);
        lastUserInput := lastUserInput (ui s);
        lastBotResponse := lastBotResponse (ui s) |};
     refs := refs s;
     env := env s |}.

Definition setIsMuted (x : bool) (s : State) : State :=
  {| ui := {|
        messages := messages (ui s); inputText := inputText (ui s);
        isSending := isSending (ui s); isListening := isListening (ui s);
        isMuted := x; drivingMode := drivingMode (ui s);
        isPlaying := isPlaying (ui s); isPaused := isPaused (ui s);
        isTyping := isTyping (ui s);
        transcribedText := transcribedText (ui s);
        lastUserInput := lastUserInput (ui s);
        lastBotResponse := lastBotResponse (ui s) |};
     refs := refs s;
     env := env s |}.

Definition setDrivingMode (x : bool) (s : State) : State :=
  {| ui := {|
        messages := messages (ui s); inputText := inputText (ui s);
        isSending := isSending (ui s); isListening := isListening (ui s);
        isMuted := isMuted (ui s); drivingMode := x;
        isPlaying := isPlaying (ui s); isPaused := isPaused (ui s);
        isTyping := isTyping (ui s);
        transcribedText := transcribedText (ui s);
        lastUserInput := lastUserInput (ui s);
        lastBotResponse := lastBotResponse (ui s) |};
     refs := refs s;
     env := env s |}.

Definition setIsPlaying (x : bool) (s : State) : State :=
  {| ui := {|
        messages := messages (ui s); inputText := inputText (ui s);
        isSending := isSending (ui s); isListening := isListening (ui s);
        isMuted := isMuted (ui s); drivingMode := drivingMode (ui s);
        isPlaying := x; isPaused := isPaused (ui s);
        isTyping := isTyping (ui s);
        transcribedText := transcribedText (ui s);
        lastUserInput := lastUserInput (ui s);
        lastBotResponse := lastBotResponse (ui s) |};
     refs := refs s;
     env := env s |}.

Definition setIsPaused (x : bool) (s : State) : State :=
  {| ui := {|
        messages := messages (ui s); inputText := inputText (ui s);
        isSending := isSending (ui s); isListening := isListening (ui s);
        isMuted := isMuted (ui s); drivingMode := drivingMode (ui s);
        isPlaying := isPlaying (ui s); isPaused := x;
        isTyping := isTyping (ui s);
        transcribedText := transcribedText (ui s);
        lastUserInput := lastUserInput (ui s);
        lastBotResponse := lastBotResponse (ui s) |};
     refs := refs s;
     env := env s |}.

Definition setIsTyping (x : bool) (s : State) : State :=
  {| ui := {|
        messages := messages (ui s); inputText := inputText (ui s);
        isSending := isSending (ui s); isListening := isListening (ui s);
        isMuted := isMuted (ui s); drivingMode := drivingMode (ui s);
        isPlaying := isPlaying (ui s); isPaused := isPaused (ui s);
        isTyping := x; transcribedText := transcribedText (ui s);
        lastUserInput := lastUserInput (ui s);
        lastBotResponse := lastBotResponse (ui s) |};
     refs := refs s;
     env := env s |}.

Definition setTranscribedText (x : string) (s : State) : State :=
  {| ui := {|
        messages := messages (ui s); inputText := inputText (ui s);
        isSending := isSending (ui s); isListening := isListening (ui s);
        isMuted := isMuted (ui s); drivingMode := drivingMode (ui s);
        isPlaying := isPlaying (ui s); isPaused := isPaused (ui s);
        isTyping := isTyping (ui s); transcribedText := x;
        lastUserInput := lastUserInput (ui s);
        lastBotResponse := lastBotResponse (ui s) |};
     refs := refs s;
     env := env s |}.

Definition setLastUserInput (x : string) (s : State) : State :=
  {| ui := {|
        messages := messages (ui s); inputText := inputText (ui s);
        isSending := isSending (ui s); isListening := isListening (ui s);
        isMuted := isMuted (ui s); drivingMode := drivingMode (ui s);
        isPlaying := isPlaying (ui s); isPaused := isPaused (ui s);
        isTyping := isTyping (ui s);
        transcribedText := transcribedText (ui s); lastUserInput := x;
        lastBotResponse := lastBotResponse (ui s) |};
     refs := refs s;
     env := env s |}.

Definition setLastBotResponse (x : string) (s : State) : State :=
  {| ui := {|
        messages := messages (ui s); inputText := inputText (ui s);
        isSending := isSending (ui s); isListening := isListening (ui s);
        isMuted := isMuted (ui s); drivingMode := drivingMode (ui s);
        isPlaying := isPlaying (ui s); isPaused := isPaused (ui s);
        isTyping := isTyping (ui s);
        transcribedText := transcribedText (ui s);
        lastUserInput := lastUserInput (ui s); lastBotResponse := x |};
     refs := refs s;
     env := env s |}.

Definition setAutoSendTimerRef (x : option nat) (s : State) : State :=
  {| ui := ui s;
     refs := {|
        autoSendTimerRef := x; hasGreeted := hasGreeted (refs s);
        seenMessageIds := seenMessageIds (refs s);
        spokenMessageIds := spokenMessageIds (refs s);
        isSpeakingRef := isSpeakingRef (refs s);
        cancelSpeechRef := cancelSpeechRef (refs s) |};
     env := env s |}.

Definition setHasGreeted (x : bool) (s : State) : State :=
  {| ui := ui s;
     refs := {|
        autoSendTimerRef := autoSendTimerRef (refs s); hasGreeted := x;
        seenMessageIds := seenMessageIds (refs s);
        spokenMessageIds := spokenMessageIds (refs s);
        isSpeakingRef := isSpeakingRef (refs s);
        cancelSpeechRef := cancelSpeechRef (refs s) |};
     env := env s |}.

Definition setSeenMessageIds (x : gset string) (s : State) : State :=
  {| ui := ui s;
     refs := {|
        autoSendTimerRef := autoSendTimerRef (refs s);
        hasGreeted := hasGreeted (refs s); seenMessageIds := x;
        spokenMessageIds := spokenMessageIds (refs s);
        isSpeakingRef := isSpeakingRef (refs s);
        cancelSpeechRef := cancelSpeechRef (refs s) |};
     env := env s |}.

Definition setSpokenMessageIds (x : gset string) (s : State) : State :=
  {| ui := ui s;
     refs := {|
        autoSendTimerRef := autoSendTimerRef (refs s);
        hasGreeted := hasGreeted (refs s);
        seenMessageIds := seenMessageIds (refs s); spokenMessageIds := x;
        isSpeakingRef := isSpeakingRef (refs s);
        cancelSpeechRef := cancelSpeechRef (refs s) |};
     env := env s |}.

Definition setIsSpeakingRef (x : bool) (s : State) : State :=
  {| ui := ui s;
     refs := {|
        autoSendTimerRef := autoSendTimerRef (refs s);
        hasGreeted := hasGreeted (refs s);
        seenMessageIds := seenMessageIds (refs s);
        spokenMessageIds := spokenMessageIds (refs s); isSpeakingRef := x;
        cancelSpeechRef := cancelSpeechRef (refs s) |};
     env := env s |}.

Definition setCancelSpeechRef (x : bool) (s : State) : State :=
  {| ui := ui s;
     refs := {|
        autoSendTimerRef := autoSendTimerRef (refs s);
        hasGreeted := hasGreeted (refs s);
        seenMessageIds := seenMessageIds (refs s);
        spokenMessageIds := spokenMessageIds (refs s);
        isSpeakingRef := isSpeakingRef (refs s); cancelSpeechRef := x |};
     env := env s |}.

Definition setChatService (x : CopilotChatService) (s : State) : State :=
  {| ui := ui s;
     refs := refs s;
     env := {|
        chatService := x; localStorage := localStorage (env s);
        clock := clock (env s); recognitionRef := recognitionRef (env s);
        handlerIsSending := handlerIsSending (env s);
        timers := timers (env s); nextTimer := nextTimer (env s);
        walks := walks (env s); nextWalk := nextWalk (env s);
        sends := sends (env s); nextSend := nextSend (env s);
        random := random (env s); randomCalls := randomCalls (env s);
        effects := effects (env s) |} |}.

Definition setLocalStorage (x : LocalStorage) (s : State) : State :=
  {| ui := ui s;
     refs := refs s;
     env := {|
        chatService := chatService (env s); localStorage := x;
        clock := clock (env s); recognitionRef := recognitionRef (env s);
        handlerIsSending := handlerIsSending (env s);
        timers := timers (env s); nextTimer := nextTimer (env s);
        walks := walks (env s); nextWalk := nextWalk (env s);
        sends := sends (env s); nextSend := nextSend (env s);
        random := random (env s); randomCalls := randomCalls (env s);
        effects := effects (env s) |} |}.

Definition setClock (x : Z) (s : State) : State :=
  {| ui := ui s;
     refs := refs s;
     env := {|
        chatService := chatService (env s);
        localStorage := localStorage (env s); clock := x;
        recognitionRef := recognitionRef (env s);
        handlerIsSending := handlerIsSending (env s);
        timers := timers (env s); nextTimer := nextTimer (env s);
        walks := walks (env s); nextWalk := nextWalk (env s);
        sends := sends (env s); nextSend := nextSend (env s);
        random := random (env s); randomCalls := randomCalls (env s);
        effects := effects (env s) |} |}.

Definition setHandlerIsSending (x : bool) (s : State) : State :=
  {| ui := ui s;
     refs := refs s;
     env := {|
        chatService := chatService (env s);
        localStorage := localStorage (env s); clock := clock (env s);
        recognitionRef := recognitionRef (env s); handlerIsSending := x;
        timers := timers (env s); nextTimer := nextTimer (env s);
        walks := walks (env s); nextWalk := nextWalk (env s);
        sends := sends (env s); nextSend := nextSend (env s);
        random := random (env s); randomCalls := randomCalls (env s);
        effects := effects (env s) |} |}.

Definition setTimers (x : gmap nat Timer) (s : State) : State :=
  {| ui := ui s;
     refs := refs s;
     env := {|
        chatService := chatService (env s);
        localStorage := localStorage (env s); clock := clock (env s);
        recognitionRef := recognitionRef (env s);
        handlerIsSending := handlerIsSending (env s); timers := x;
        nextTimer := nextTimer (env s); walks := walks (env s);
        nextWalk := nextWalk (env s); sends := sends (env s);
        nextSend := nextSend (env s); random := random (env s);
        randomCalls := randomCalls (env s); effects := effects (env s) |} |}.

Definition setNextTimer (x : nat) (s : State) : State :=
  {| ui := ui s;
     refs := refs s;
     env := {|
        chatService := chatService (env s);
        localStorage := localStorage (env s); clock := clock (env s);
        recognitionRef := recognitionRef (env s);
        handlerIsSending := handlerIsSending (env s);
        timers := timers (env s); nextTimer := x; walks := walks (env s);
        nextWalk := nextWalk (env s); sends := sends (env s);
        nextSend := nextSend (env s); random := random (env s);
        randomCalls := randomCalls (env s); effects := effects (env s) |} |}.

Definition setWalks (x : gmap nat Walk) (s : State) : State :=
  {| ui := ui s;
     refs := refs s;
     env := {|
        chatService := chatService (env s);
        localStorage := localStorage (env s); clock := clock (env s);
        recognitionRef := recognitionRef (env s);
        handlerIsSending := handlerIsSending (env s);
        timers := timers (env s); nextTimer := nextTimer (env s);
        walks := x; nextWalk := nextWalk (env s); sends := sends (env s);
        nextSend := nextSend (env s); random := random (env s);
        randomCalls := randomCalls (env s); effects := effects (env s) |} |}.

Definition setNextWalk (x : nat) (s : State) : State :=
  {| ui := ui s;
     refs := refs s;
     env := {|
        chatService := chatService (env s);
        localStorage := localStorage (env s); clock := clock (env s);
        recognitionRef := recognitionRef (env s);
        handlerIsSending := handlerIsSending (env s);
        timers := timers (env s); nextTimer := nextTimer (env s);
        walks := walks (env s); nextWalk := x; sends := sends (env s);
        nextSend := nextSend (env s); random := random (env s);
        randomCalls := randomCalls (env s); effects := effects (env s) |} |}.

Definition setSends (x : gmap nat PendingSend) (s : State) : State :=
  {| ui := ui s;
     refs := refs s;
     env := {|
        chatService := chatService (env s);
        localStorage := localStorage (env s); clock := clock (env s);
        recognitionRef := recognitionRef (env s);
        handlerIsSending := handlerIsSending (env s);
        timers := timers (env s); nextTimer := nextTimer (env s);
        walks := walks (env s); nextWalk := nextWalk (env s); sends := x;
        nextSend := nextSend (env s); random := random (env s);
        randomCalls := randomCalls (env s); effects := effects (env s) |} |}.

Definition setNextSend (x : nat) (s : State) : State :=
  {| ui := ui s;
     refs := refs s;
     env := {|
        chatService := chatService (env s);
        localStorage := localStorage (env s); clock := clock (env s);
        recognitionRef := recognitionRef (env s);
        handlerIsSending := handlerIsSending (env s);
        timers := timers (env s); nextTimer := nextTimer (env s);
        walks := walks (env s); nextWalk := nextWalk (env s);
        sends := sends (env s); nextSend := x; random := random (env s);
        randomCalls := randomCalls (env s); effects := effects (env s) |} |}.

Definition setRandomCalls (x : nat) (s : State) : State :=
  {| ui := ui s;
     refs := refs s;
     env := {|
        chatService := chatService (env s);
        localStorage := localStorage (env s); clock := clock (env s);
        recognitionRef := recognitionRef (env s);
        handlerIsSending := handlerIsSending (env s);
        timers := timers (env s); nextTimer := nextTimer (env s);
        walks := walks (env s); nextWalk := nextWalk (env s);
        sends := sends (env s); nextSend := nextSend (env s);
        random := random (env s); randomCalls := x;
        effects := effects (env s) |} |}.

(** Append calls to the trace. *)
Definition emit (es : list Effect) (s : State) : State :=
  {| ui := ui s;
     refs := refs s;
     env := {|
        chatService := chatService (env s);
        localStorage := localStorage (env s); clock := clock (env s);
        recognitionRef := recognitionRef (env s);
        handlerIsSending := handlerIsSending (env s);
        timers := timers (env s); nextTimer := nextTimer (env s);
        walks := walks (env s); nextWalk := nextWalk (env s);
        sends := sends (env s); nextSend := nextSend (env s);
        random := random (env s); randomCalls := randomCalls (env s);
        effects := effects (env s) ++ es |} |}.

(** ** The chat window's behaviour ([ChatWindow.tsx]) *)

(** *** Browser timers and the recogniser *)

Definition setTimeout (delay : nat) (action : TimerAction) (s : State)
    : nat * State :=
  let h := nextTimer (env s) in
  let s := setTimers
             (<[h := {| t_delay := delay; t_action := action |}]> (timers (env s)))
             s in
  (h, emit [SetTimeout h delay] (setNextTimer (S h) s)).

Definition clearTimeout (h : nat) (s : State) : State :=
  emit [ClearTimeout h] (setTimers (delete h (timers (env s))) s).

(** [if (autoSendTimerRef.current) clearTimeout(autoSendTimerRef.current)]. *)
Definition clearAutoSendTimer (s : State) : State :=
  match autoSendTimerRef (refs s) with
  | Some h => clearTimeout h s
  | None => s
  end.

(** *** The mapper applied to the kept activities, in order *)

Fixpoint mapActivities (random_ : nat -> string) (n : nat) (now : Z)
    (acts : list Activity) : list Message * nat :=
  match acts with
  | [] => ([], n)
  | activity :: rest =>
      let n' := if truthyOpt (act_id activity) then n else S n in
      let '(msgs, n'') := mapActivities random_ n' now rest in
      (mapActivity (random_ n) now activity :: msgs, n'')
  end.

(** *** The speech walk: the [async] block started by [pollMessages] *)

Definition handleDrivingModeStart (s : State) : State :=
  if negb (recognitionRef (env s)) then
    emit [Alert "Speech recognition not supported in this browser"] s
  else
    let s := setTranscribedText "" s in
    let s := setLastUserInput "" s in
    let s := emit [RecognitionStart] s in
    setIsListening true s.

(** The [finally] block. *)
Definition walkFinally (driving : bool) (s : State) : State :=
  let s := setIsPlaying false s in
  let s := setIsSpeakingRef false s in
  if driving && negb (cancelSpeechRef (refs s))
  then snd (setTimeout 1000 DrivingModeRestart s)
  else s.

(** The [for] loop from its head, for walk [w] with [msgs] left: it leaves
    through [finally] when the list is exhausted or the cancellation flag
    is set, and otherwise calls [speak] and suspends. *)
Definition walkLoop (w : nat) (driving : bool) (msgs : list Message)
    (s : State) : State :=
  match msgs with
  | [] => walkFinally driving s
  | msg :: rest =>
      if cancelSpeechRef (refs s) then walkFinally driving s
      else
        let text := orElse (msg_speakText msg) "" in
        let s := setLastBotResponse text s in
        let s := emit [Speak text] s in
        setWalks
          (<[w := {| w_rest := rest; w_drivingMode := driving |}]> (walks (env s)))
          s
  end.

(** The statements of the block before the loop: in driving mode the
    microphone is stopped and a pending auto-send is cancelled. *)
Definition walkPrelude (s : State) : State :=
  let s :=
    if drivingMode (ui s) && recognitionRef (env s) then
      let s := emit [RecognitionStop] s in
      let s := setIsListening false s in
      match autoSendTimerRef (refs s) with
      | Some h => setAutoSendTimerRef None (clearTimeout h s)
      | None => s
      end
    else s in
  setIsPlaying true s.

(** The block up to its first [await]; the walk is given a fresh handle. *)
Definition walkStart (unspokenMessages : list Message) (s : State) : State :=
  let w := nextWalk (env s) in
  walkLoop w (drivingMode (ui s)) unspokenMessages
    (walkPrelude (setNextWalk (S w) s)).

(** The awaited [speak] promise of walk [w] settles: a rejection is caught
    and logged, and the loop goes on with the next message. *)
Definition speakSettled (w : nat) (resolved : bool) (s : State) : State :=
  match walks (env s) !! w with
  | None => s
  | Some walk =>
      let s := setWalks (delete w (walks (env s))) s in
      let s := if resolved then s else emit [ConsoleError "Speech failed"] s in
      walkLoop w (w_drivingMode walk) (w_rest walk) s
  end.

(** *** The polling callback *)

(** [const shouldSpeak = !isMuted || drivingMode]. *)
Definition shouldSpeak (s : State) : bool :=
  negb (isMuted (ui s)) || drivingMode (ui s).

(** The branch [if (shouldSpeak) { ... }]: mark, then drop or walk. *)
Definition speakNewMessages (newMessages : list Message) (s : State) : State :=
  let '(unspokenMessages, spoken) :=
    collectUnspoken (spokenMessageIds (refs s)) newMessages in
  let s := setSpokenMessageIds spoken s in
  match unspokenMessages with
  | [] => s
  | _ :: _ =>
      if isSpeakingRef (refs s) then s
      else walkStart unspokenMessages (setIsSpeakingRef true s)
  end.

(** The start of the block [if (newMessages.length > 0) { ... }]: the
    transcript grows and the last bot response is noted. *)
Definition noteNewMessages (newMessages : list Message) (s : State) : State :=
  let s := setIsTyping false s in
  let s := setMessages (fun prev => prev ++ newMessages) s in
  match last newMessages with
  | Some lastBotMsg =>
      if truthyOpt (msg_speakText lastBotMsg)
      then setLastBotResponse (orElse (msg_speakText lastBotMsg) "") s
      else s
  | None => s
  end.

(** The block [if (newMessages.length > 0) { ... }]. *)
Definition applyNewMessages (newMessages : list Message) (s : State) : State :=
  match newMessages with
  | [] => s
  | _ :: _ =>
      let s := noteNewMessages newMessages s in
      if shouldSpeak s then speakNewMessages newMessages s else s
  end.

(** [pollMessages()], given the settlement of the [fetch] made by
    [getMessages]. *)
Definition pollMessages (poll : Fetched ActivitySet) (s : State) : State :=
  let '(result, svc, ls, eff) :=
    getMessages poll (clock (env s)) (chatService (env s))
      (localStorage (env s)) in
  let s := emit eff (setLocalStorage ls (setChatService svc s)) in
  match result with
  | Thrown _ => emit [ConsoleError "Failed to poll messages"] s
  | Returned acts =>
      let '(kept, seen) := dedupe (seenMessageIds (refs s)) acts in
      let s := setSeenMessageIds seen s in
      let '(mapped, n) :=
        mapActivities (random (env s)) (randomCalls (env s)) (clock (env s))
          kept in
      let s := setRandomCalls n s in
      applyNewMessages (List.filter hasContent mapped) s
  end.

(** *** Sending *)

(** The end of [sendMessage] once the [POST] has settled, followed by the
    [.finally] of the auto-send callback when it chained one. *)
Definition sendFinish (auto succeeded : bool) (s : State) : State :=
  let s :=
    if succeeded then setInputText "" s
    else emit [ConsoleError "Failed to send message"] s in
  let s := setIsSending false s in
  if auto then setInputText "" (setIsSending false s) else s.

(** [sendMessage(text)] without attachments, up to its [await];
    [seenIsSending] is the [isSending] of the render whose closure is
    called. *)
Definition sendMessage (text : string) (seenIsSending auto : bool) (s : State)
    : State :=
  if negb (truthy (trim text)) || seenIsSending then
    if auto then setInputText "" (setIsSending false s) else s
  else
    let s := setLastUserInput (orElse (Some text) "Sent attachments") s in
    let s := setTranscribedText "" s in
    let s := setIsTyping true s in
    let userMessage :=
      {| msg_id := random (env s) (randomCalls (env s));
         msg_text := text;
         msg_isUser := true;
         msg_timestamp := DateAt (clock (env s));
         msg_speakText := None;
         msg_adaptiveCard := None;
         msg_isSignInCard := None;
         msg_signInUrl := None;
         msg_attachments := None |} in
    let s := setRandomCalls (S (randomCalls (env s))) s in
    let s := setMessages (fun prev => prev ++ [userMessage]) s in
    let s := setIsSending true s in
    match sendMessageRequest text (chatService (env s)) with
    | Returned request =>
        let k := nextSend (env s) in
        let s := emit [request] s in
        setNextSend (S k) (setSends (<[k := {| ps_auto := auto |}]> (sends (env s))) s)
    | Thrown _ => sendFinish auto false s
    end.

Definition sendSettled (k : nat) (succeeded : bool) (s : State) : State :=
  match sends (env s) !! k with
  | None => s
  | Some p =>
      sendFinish (ps_auto p) succeeded (setSends (delete k (sends (env s))) s)
  end.

Definition handleSendMessage (s : State) : State :=
  if truthy (trim (inputText (ui s)))
  then sendMessage (inputText (ui s)) (isSending (ui s)) false s
  else s.

(** *** Timer callbacks *)

Definition fireTimer (hs : Handshake) (action : TimerAction) (s : State)
    : State :=
  match action with
  | AutoSend transcript captured =>
      let s := if recognitionRef (env s) then emit [RecognitionStop] s else s in
      let s := setIsListening false s in
      let s := setIsSending true s in
      sendMessage transcript captured true s
  | ResetCancel => setCancelSpeechRef false s
  | DrivingModeRestart => handleDrivingModeStart s
  | RestartConversation =>
      let '(result, eff) := triggerConversationStart hs (chatService (env s)) in
      let s := emit eff s in
      match result with
      | Returned _ => s
      | Thrown _ => emit [ConsoleError "Failed to restart conversation"] s
      end
  end.

Definition timerFired (h : nat) (hs : Handshake) (s : State) : State :=
  match timers (env s) !! h with
  | None => s
  | Some t => fireTimer hs (t_action t) (setTimers (delete h (timers (env s))) s)
  end.

(** *** Speech recognition handlers *)

Record RecognitionResult := {
  transcript : string;
  isFinal : bool;
  confidence : option Q
}.

Definition noiseWords : list string :=
  ["no"; "oh"; "uh"; "um"; "ah"; "huh"; "hmm"; "yeah"; "the"; "a"; "i"].

Definition AUTO_SEND_DELAY : nat := 2000.

Definition isLikelyNoise (transcript_ : string) (confidence_ : option Q)
    : bool :=
  let trimmedTranscript := toLowerCase (trim transcript_) in
  includes noiseWords trimmedTranscript
  || Nat.ltb (String.length trimmedTranscript) 3
  || match confidence_ with
     | Some c => negb (Qle_bool (1 # 2) c)
     | None => false
     end.

Definition onresult (event : RecognitionResult) (s : State) : State :=
  let noise := isLikelyNoise (transcript event) (confidence event) in
  if drivingMode (ui s) then
    if negb (isFinal event) then
      if negb noise || Nat.ltb 5 (String.length (transcript event))
      then setTranscribedText (transcript event) s
      else s
    else if noise then setTranscribedText "" s
    else
      let s := setInputText (transcript event) s in
      let s := setLastUserInput (transcript event) s in
      let s := setIsListening false s in
      let s := setTranscribedText "" s in
      let s := clearAutoSendTimer s in
      let '(h, s) :=
        setTimeout AUTO_SEND_DELAY
          (AutoSend (transcript event) (handlerIsSending (env s))) s in
      setAutoSendTimerRef (Some h) s
  else
    let s := setInputText (transcript event) s in
    setIsListening false s.

Definition onerror (s : State) : State :=
  let s := emit [ConsoleError "Speech recognition error"] s in
  let s := setIsListening false s in
  setTranscribedText "" s.

Definition onend (s : State) : State :=
  let s := setIsListening false s in
  if negb (drivingMode (ui s)) then setTranscribedText "" s else s.

(** *** Button handlers *)

Definition toggleListening (s : State) : State :=
  if negb (recognitionRef (env s)) then
    emit [Alert "Speech recognition not supported in this browser"] s
  else if isListening (ui s) then
    let s := emit [RecognitionStop] s in
    let s := setIsListening false s in
    let s := setTranscribedText "" s in
    clearAutoSendTimer s
  else
    let s := setTranscribedText "" s in
    let s := setLastUserInput "" s in
    let s := emit [RecognitionStart] s in
    setIsListening true s.

Definition handleDrivingModeStop (s : State) : State :=
  let s := setCancelSpeechRef true s in
  let s := emit [SpeechStop] s in
  let s := setIsPlaying false s in
  let s := setIsSpeakingRef false s in
  let s := snd (setTimeout 100 ResetCancel s) in
  snd (setTimeout 500 DrivingModeRestart s).

Definition handleAudioPlay (s : State) : State :=
  let s := setIsMuted false s in
  let s := setIsPaused false s in
  let s := setCancelSpeechRef false s in
  let s := setIsSpeakingRef false s in
  emit [SpeechResume] s.

Definition handleAudioPause (s : State) : State :=
  let s := setIsPaused true s in
  emit [SpeechPause] s.

Definition handleAudioStop (s : State) : State :=
  let s := setIsMuted true s in
  let s := setIsPaused false s in
  let s := setCancelSpeechRef true s in
  let s := setIsSpeakingRef false s in
  let s := setIsPlaying false s in
  emit [SpeechStop] s.

Definition handleNewChat (s : State) : State :=
  let s := setMessages (fun _ => []) s in
  let s := setSeenMessageIds ∅ s in
  let s := setHasGreeted false s in
  let s := setLastUserInput "" s in
  let s := setLastBotResponse "" s in
  let s := setTranscribedText "" s in
  let '(ls, eff) := clearMessages (localStorage (env s)) in
  let s := emit eff (setLocalStorage ls s) in
  let '(ls, eff) := clearConversationState (localStorage (env s)) in
  let s := emit eff (setLocalStorage ls s) in
  snd (setTimeout 500 RestartConversation s).

(** [setDrivingMode(b)]: when the value changes, the recognition effect
    (dependency [drivingMode]) is cleaned up and run again, so the handlers
    installed from then on close over the [sendMessage] of that render. *)
Definition changeDrivingMode (b : bool) (s : State) : State :=
  if Bool.eqb b (drivingMode (ui s)) then s
  else
    let s := setDrivingMode b s in
    let s := if recognitionRef (env s) then emit [RecognitionStop] s else s in
    let s := clearAutoSendTimer s in
    setHandlerIsSending (isSending (ui s)) s.

(** *** The event loop *)

Inductive Event :=
| PollTick (poll : Fetched ActivitySet)
| SpeakSettled (w : nat) (resolved : bool)
| SendSettled (k : nat) (succeeded : bool)
| TimerFired (h : nat) (hs : Handshake)
| RecognitionResultEvent (event : RecognitionResult)
| RecognitionError
| RecognitionEnd
| ClickSend
| ClickMic
| ClickDrivingMic
| ClickDrivingStop
| ClickPlay
| ClickPause
| ClickStop
| ClickNewChat
| DrivingModeSet (b : bool)
| TimePasses (ms : nat).

Definition step (e : Event) (s : State) : State :=
  match e with
  | PollTick poll => pollMessages poll s
  | SpeakSettled w resolved => speakSettled w resolved s
  | SendSettled k succeeded => sendSettled k succeeded s
  | TimerFired h hs => timerFired h hs s
  | RecognitionResultEvent event => onresult event s
  | RecognitionError => onerror s
  | RecognitionEnd => onend s
  | ClickSend => handleSendMessage s
  | ClickMic => toggleListening s
  | ClickDrivingMic => handleDrivingModeStart s
  | ClickDrivingStop => handleDrivingModeStop s
  | ClickPlay => handleAudioPlay s
  | ClickPause => handleAudioPause s
  | ClickStop => handleAudioStop s
  | ClickNewChat => handleNewChat s
  | DrivingModeSet b => changeDrivingMode b s
  | TimePasses ms => setClock (clock (env s) + Z.of_nat ms) s
  end.

Definition run (es : list Event) (s : State) : State :=
  fold_left (fun s e => step e s) es s.

(** The state in which the component mounts. *)
Definition initialState (isReconnected savedMuted recognitionSupported : bool)
    (service : CopilotChatService) (ls : LocalStorage) (now : Z)
    (random_ : nat -> string) : State :=
  let savedMessages :=
    if isReconnected then List.map fromStoredMessage (loadMessages ls) else [] in
  {| ui := {| messages := savedMessages; inputText := ""; isSending := false;
              isListening := false; isMuted := savedMuted;
              drivingMode := false; isPlaying := false; isPaused := false;
              isTyping := false; transcribedText := "";
              lastUserInput := ""; lastBotResponse := "" |};
     refs := {| autoSendTimerRef := None; hasGreeted := isReconnected;
                seenMessageIds := list_to_set (List.map msg_id savedMessages);
                spokenMessageIds := ∅; isSpeakingRef := false;
                cancelSpeechRef := false |};
     env := {| chatService := service; localStorage := ls; clock := now;
               recognitionRef := recognitionSupported;
               handlerIsSending := false; timers := ∅; nextTimer := 1;
               walks := ∅; nextWalk := 0; sends := ∅; nextSend := 0;
               random := random_; randomCalls := 0; effects := [] |} |}.

(** ** Observations used in the statements *)

(** The texts handed to [speak], in trace order. *)
Definition speechCalls (es : list Effect) : list string :=
  flat_map (fun e => match e with Speak text => [text] | _ => [] end) es.


(** The activities [getMessages] hands to a poll cycle ([[]] when it
    throws). *)
Definition received (poll : Fetched ActivitySet) (s : State) : list Activity :=
  match getMessages poll (clock (env s)) (chatService (env s))
          (localStorage (env s)) with
  | (Returned acts, _, _, _) => acts
  | (Thrown _, _, _, _) => []
  end.

(** The activities of a cycle that pass the de-duplication filter. *)
Definition kept (poll : Fetched ActivitySet) (s : State) : list Activity :=
  fst (dedupe (seenMessageIds (refs s)) (received poll s)).

(** The [newMessages] of a cycle. *)
Definition newMessagesOf (poll : Fetched ActivitySet) (s : State)
    : list Message :=
  List.filter hasContent
    (fst (mapActivities (random (env s)) (randomCalls (env s)) (clock (env s))
            (kept poll s))).




(** All activities [getMessages] handed to the poll cycles of a run. *)
Fixpoint receivedLog (es : list Event) (s : State) : list Activity :=
  match es with
  | [] => []
  | e :: rest =>
      match e with
      | PollTick poll => received poll s
      | _ => []
      end ++ receivedLog rest (step e s)
  end.

(** The first activity of a list that is keyed [i]. *)
Definition firstKeyed (i : string) (acts : list Activity) : option Activity :=
  List.find (fun a => String.eqb (messageKey a) i) acts.


(** The number of transcript entries carrying id [i]. *)
Definition countId (i : string) (msgs : list Message) : nat :=
  length (List.filter (fun m => String.eqb (msg_id m) i) msgs).

(** Whether the mapper's output for an activity passes the content filter. *)
Definition contentBearing (activity : Activity) : bool :=
  let x := extract activity in
  truthy (messageText x) || isSignInCard x
  || match adaptiveCard x with Some _ => true | None => false end.

(** By how much one cycle grows the transcript under id [i], given the
    set of seen ids and the activities received: by one when the id is new
    and the first activity so keyed bears content. *)
Definition growth (i : string) (seen : gset string) (acts : list Activity)
    : nat :=
  if bool_decide (i ∈ seen) then 0
  else match firstKeyed i acts with
       | Some a => if contentBearing a then 1 else 0
       | None => 0
       end.


(** The body of a settled [fetch] when the caller can use it: the promise
    resolved with an [ok] response whose body parses. *)
Definition succeeded {B} (fetched : Fetched B) : option B :=
  match fetched with
  | Some response => if ok response then json response else None
  | None => None
  end.


(** What the speech walk leaves alone. *)
Definition walkFrame (s s' : State) : Prop :=
  messages (ui s') = messages (ui s)
  /\ isMuted (ui s') = isMuted (ui s)
  /\ drivingMode (ui s') = drivingMode (ui s)
  /\ seenMessageIds (refs s') = seenMessageIds (refs s)
  /\ spokenMessageIds (refs s') = spokenMessageIds (refs s)
  /\ cancelSpeechRef (refs s') = cancelSpeechRef (refs s)
  /\ chatService (env s') = chatService (env s)
  /\ localStorage (env s') = localStorage (env s)
  /\ clock (env s') = clock (env s)
  /\ random (env s') = random (env s)
  /\ randomCalls (env s') = randomCalls (env s).


(** The speak promise of walk [w] settles with each outcome in turn. *)
Definition settleAll (w : nat) (outcomes : list bool) (s : State) : State :=
  fold_left (fun s resolved => speakSettled w resolved s) outcomes s.

(** ** Sample data *)

Definition botText (i text : string) : Activity :=
  {| act_id := Some i; act_type := "message"; act_from := "bot";
     act_text := Some text; act_timestamp := Some "2025-01-01T00:00:00Z";
     act_attachments := None; act_silentGreeting := None |}.

Definition okPoll (acts : list Activity) (wm : string) : Fetched ActivitySet :=
  Some {| status := 200; statusText := "OK";
          json := Some {| activities := acts; set_watermark := wm |} |}.


Fixpoint sevens (n : nat) : string :=
  match n with
  | O => ""
  | S k => String "7" (sevens k)
  end.

Definition sampleRandom (n : nat) : string := "0." +:+ sevens (S n).

Definition sampleService : CopilotChatService :=
  withConversation (Some "conv-1") None
    (setStateChangeCallback PersistConversation (newService "s3cret" None)).

Definition emptyStorage : LocalStorage :=
  {| ls_messages := None; ls_conversation := None |}.

(** A freshly mounted window, unmuted. *)
Definition sampleState : State :=
  initialState false false true sampleService emptyStorage 1000 sampleRandom.


Definition twoTurns : Fetched ActivitySet :=
  okPoll [botText "t1" "Hello"; botText "t2" "How can I help?"] "2".

(** A window in which the walk over [twoTurns] is suspended on its first
    utterance: the lock is held. *)
Definition talkingState : State := pollMessages twoTurns sampleState.

Definition thirdTurn : Fetched ActivitySet :=
  okPoll [botText "t3" "Anything else?"] "3".




Definition lights : RecognitionResult :=
  {| transcript := "turn on the lights"; isFinal := true;
     confidence := Some (9 # 10) |}.

Definition savedStorage : LocalStorage :=
  {| ls_messages := None;
     ls_conversation :=
       Some {| cs_conversationId := "old-conv"; cs_watermark := Some "7";
               cs_savedAt := 0 |} |}.




(** A turn with display text whose adaptive card has neither a [speak]
    field nor a text element (its body holds one element without text). *)
Definition pictureCard : Activity :=
  {| act_id := Some "t9"; act_type := "message"; act_from := "bot";
     act_text := Some "Here is the picture";
     act_timestamp := None;
     act_attachments :=
       Some [{| att_contentType := CARD_ADAPTIVE;
                att_content :=
                  Some {| card_buttons := None;
                          card_body := Some [{| item_text := None |}];
                          card_speak := None |} |}];
     act_silentGreeting := None |}.

(** A turn without display text whose adaptive card has two text elements. *)
Definition textCard : Activity :=
  {| act_id := Some "t8"; act_type := "message"; act_from := "bot";
     act_text := None;
     act_timestamp := None;
     act_attachments :=
       Some [{| att_contentType := CARD_ADAPTIVE;
                att_content :=
                  Some {| card_buttons := None;
                          card_body :=
                            Some [{| item_text := Some "Pick a size" |};
                                  {| item_text := Some "Small or large" |}];
                          card_speak := None |} |}];
     act_silentGreeting := None |}.

(** What is left of the walk of [talkingState] while "Hello" is spoken. *)
Definition pendingWalk : Walk :=
  {| w_rest := [mapActivity "" 1000 (botText "t2" "How can I help?")];
     w_drivingMode := false |}.

(** Stop, then play, then a third turn arrives while the first walk is
    still suspended. *)
Definition stopPlayPoll : list Event :=
  [ClickStop; ClickPlay; PollTick thirdTurn].

Definition userTurn : Activity :=
  {| act_id := Some "u1"; act_type := "message"; act_from := "user";
     act_text := Some "Hi"; act_timestamp := None;
     act_attachments := None; act_silentGreeting := None |}.

(** * Properties *)

(** ** Frames: what each stage leaves alone *)

Ltac frame := repeat (simpl; try done; case_match); simpl; try done.

Lemma speechCalls_app a b : speechCalls (a ++ b) = speechCalls a ++ speechCalls b.
Proof. apply flat_map_app. Qed.

Lemma walkFrame_trans s1 s2 s3 :
  walkFrame s1 s2 -> walkFrame s2 s3 -> walkFrame s1 s3.
Proof. unfold walkFrame. intuition congruence. Qed.

Lemma walkFinally_frame d s : walkFrame s (walkFinally d s).
Proof. unfold walkFrame, walkFinally, setTimeout. repeat split; frame. Qed.

Lemma walkLoop_frame w d msgs s : walkFrame s (walkLoop w d msgs s).
Proof.
  unfold walkLoop. destruct msgs; [apply walkFinally_frame|].
  destruct (cancelSpeechRef (refs s)); [apply walkFinally_frame|].
  unfold walkFrame; repeat split; reflexivity.
Qed.

Lemma walkPrelude_frame s :
  walkFrame s (walkPrelude s)
  /\ walks (env (walkPrelude s)) = walks (env s)
  /\ nextWalk (env (walkPrelude s)) = nextWalk (env s)
  /\ isSpeakingRef (refs (walkPrelude s)) = isSpeakingRef (refs s)
  /\ speechCalls (effects (env (walkPrelude s))) = speechCalls (effects (env s)).
Proof.
  unfold walkFrame, walkPrelude, clearTimeout. repeat split; frame;
    rewrite ?speechCalls_app; simpl; by rewrite ?app_nil_r.
Qed.

Lemma walkStart_frame u s : walkFrame s (walkStart u s).
Proof.
  unfold walkStart.
  eapply walkFrame_trans; [|apply walkLoop_frame].
  eapply walkFrame_trans; [|apply walkPrelude_frame].
  unfold walkFrame. repeat split.
Qed.

Lemma speakNewMessages_frame nm s :
  walkFrame
    (setSpokenMessageIds (snd (collectUnspoken (spokenMessageIds (refs s)) nm)) s)
    (speakNewMessages nm s).
Proof.
  unfold speakNewMessages.
  destruct (collectUnspoken _ nm) as [u sp]; simpl.
  destruct u; [unfold walkFrame; repeat split|].
  destruct (isSpeakingRef (refs s)); [unfold walkFrame; repeat split|].
  eapply walkFrame_trans; [|apply walkStart_frame].
  unfold walkFrame; repeat split.
Qed.


Lemma noteNewMessages_refs nm s : refs (noteNewMessages nm s) = refs s.
Proof. unfold noteNewMessages. frame. Qed.

Lemma noteNewMessages_env nm s : env (noteNewMessages nm s) = env s.
Proof. unfold noteNewMessages. frame. Qed.

Lemma noteNewMessages_ui nm s :
  messages (ui (noteNewMessages nm s)) = messages (ui s) ++ nm
  /\ isMuted (ui (noteNewMessages nm s)) = isMuted (ui s)
  /\ drivingMode (ui (noteNewMessages nm s)) = drivingMode (ui s).
Proof. unfold noteNewMessages. repeat split; frame. Qed.

Lemma applyNewMessages_frame nm s :
  let s' := applyNewMessages nm s in
  messages (ui s') = messages (ui s) ++ nm
  /\ isMuted (ui s') = isMuted (ui s)
  /\ drivingMode (ui s') = drivingMode (ui s)
  /\ seenMessageIds (refs s') = seenMessageIds (refs s)
  /\ spokenMessageIds (refs s')
     = (if shouldSpeak s
        then snd (collectUnspoken (spokenMessageIds (refs s)) nm)
        else spokenMessageIds (refs s))
  /\ chatService (env s') = chatService (env s)
  /\ localStorage (env s') = localStorage (env s)
  /\ clock (env s') = clock (env s)
  /\ random (env s') = random (env s)
  /\ randomCalls (env s') = randomCalls (env s).
Proof.
  unfold applyNewMessages, shouldSpeak.
  destruct nm as [|m ms].
  { simpl. rewrite app_nil_r. repeat split. by destruct (_ || _). }
  set (nm := m :: ms). cbv zeta.
  destruct (noteNewMessages_ui nm s) as (Hm & Hmu & Hd).
  rewrite Hmu, Hd.
  destruct (negb (isMuted (ui s)) || drivingMode (ui s)).
  - pose proof (speakNewMessages_frame nm (noteNewMessages nm s)) as F.
    unfold walkFrame in F. simpl in F.
    rewrite !noteNewMessages_refs, !noteNewMessages_env in F.
    destruct F as (-> & -> & -> & -> & -> & _ & -> & -> & -> & -> & ->).
    rewrite Hm, Hmu, Hd. repeat split.
  - rewrite noteNewMessages_refs, noteNewMessages_env. repeat split; assumption.
Qed.




(** The projections of a poll cycle. *)
Lemma pollMessages_frame poll s :
  let s' := pollMessages poll s in
  messages (ui s') = messages (ui s) ++ newMessagesOf poll s
  /\ isMuted (ui s') = isMuted (ui s)
  /\ drivingMode (ui s') = drivingMode (ui s)
  /\ seenMessageIds (refs s')
     = snd (dedupe (seenMessageIds (refs s)) (received poll s))
  /\ spokenMessageIds (refs s')
     = (if shouldSpeak s
        then snd (collectUnspoken (spokenMessageIds (refs s))
                    (newMessagesOf poll s))
        else spokenMessageIds (refs s))
  /\ clock (env s') = clock (env s)
  /\ random (env s') = random (env s).
Proof.
  unfold pollMessages, newMessagesOf, kept, received.
  destruct (getMessages _ _ _ _) as [[[result svc] ls] eff].
  destruct result as [acts|msg]; simpl.
  - destruct (dedupe _ acts) as [k seen]; simpl.
    destruct (mapActivities _ _ _ k) as [mapped n]; simpl.
    match goal with |- context [applyNewMessages ?nm ?t] =>
      pose proof (applyNewMessages_frame nm t) as F end.
    simpl in F. unfold shouldSpeak in *. simpl in F.
    destruct F as (-> & -> & -> & -> & -> & _ & _ & -> & -> & _).
    repeat split.
  - rewrite app_nil_r. repeat split. by destruct (shouldSpeak s).
Qed.




(** ** The de-duplication sets *)

Lemma dedupe_seen seen acts x :
  x ∈ snd (dedupe seen acts)
  <-> x ∈ seen \/ x ∈ List.map messageKey acts.
Proof.
  revert seen. induction acts as [|a rest IH]; intros seen;
    cbn [dedupe List.map].
  { rewrite elem_of_nil. cbn [snd]. tauto. }
  rewrite elem_of_cons.
  destruct (bool_decide (messageKey a ∈ seen)) eqn:E.
  - apply bool_decide_eq_true in E. rewrite IH.
    split; [tauto|]. intros [H|[->|H]]; tauto.
  - destruct (dedupe _ rest) as [k seen'] eqn:D. cbn [snd].
    specialize (IH ({[messageKey a]} ∪ seen)). rewrite D in IH. cbn [snd] in IH.
    rewrite IH, elem_of_union, elem_of_singleton. tauto.
Qed.

Lemma dedupe_mono seen acts : seen ⊆ snd (dedupe seen acts).
Proof. intros x Hx. apply dedupe_seen. by left. Qed.

Lemma collectUnspoken_spoken spoken msgs x :
  x ∈ snd (collectUnspoken spoken msgs)
  <-> x ∈ spoken \/ exists m, m ∈ msgs /\ speakable m = true /\ msg_id m = x.
Proof.
  revert spoken. induction msgs as [|m rest IH]; intros spoken;
    cbn [collectUnspoken].
  { split; [by left|]. intros [H|(m & Hm & _)]; [done|].
    by apply elem_of_nil in Hm. }
  fold (speakable m).
  assert (Tail : forall P : Prop,
            (P \/ exists m', m' ∈ rest /\ speakable m' = true /\ msg_id m' = x)
            -> P \/ exists m', m' ∈ m :: rest /\ speakable m' = true
                                /\ msg_id m' = x).
  { intros P [H|(m' & Hm' & S' & I')]; [by left|right].
    exists m'. split; [by right|done]. }
  destruct (speakable m) eqn:Sp; cbn [andb].
  - destruct (bool_decide (msg_id m ∈ spoken)) eqn:E; cbn [negb].
    + apply bool_decide_eq_true in E. rewrite IH. split; [apply Tail|].
      intros [H|(m' & Hm' & S' & I')]; [by left|].
      apply elem_of_cons in Hm' as [->|Hm']; [left; by subst|right; eauto].
    + destruct (collectUnspoken _ rest) as [u sp'] eqn:D. cbn [snd].
      specialize (IH ({[msg_id m]} ∪ spoken)). rewrite D in IH. cbn [snd] in IH.
      rewrite IH, elem_of_union, elem_of_singleton. split.
      * intros [[->|H]|H]; [right|by left|by apply Tail; right].
        exists m. split; [by left|done].
      * intros [H|(m' & Hm' & S' & I')]; [by left; right|].
        apply elem_of_cons in Hm' as [->|Hm']; [left; by left|right; eauto].
  - rewrite IH. split; [apply Tail|].
    intros [H|(m' & Hm' & S' & I')]; [by left|].
    apply elem_of_cons in Hm' as [->|Hm']; [congruence|right; eauto].
Qed.

Lemma collectUnspoken_mono spoken msgs :
  spoken ⊆ snd (collectUnspoken spoken msgs).
Proof. intros x Hx. apply collectUnspoken_spoken. by left. Qed.


(** Handlers other than the poll and the new-chat button leave both sets
    as they are. *)
Lemma step_sets e s :
  match e with
  | PollTick _ | ClickNewChat => True
  | _ =>
      seenMessageIds (refs (step e s)) = seenMessageIds (refs s)
      /\ spokenMessageIds (refs (step e s)) = spokenMessageIds (refs s)
  end.
Proof.
  destruct e; try exact I; simpl.
  - unfold speakSettled. destruct (walks (env s) !! w); [|done].
    match goal with |- context [walkLoop ?a ?b ?c ?t] =>
      destruct (walkLoop_frame a b c t) as (_ & _ & _ & -> & -> & _) end.
    split; frame.
  - unfold sendSettled, sendFinish. split; frame.
  - unfold timerFired, fireTimer, sendMessage, sendFinish,
      handleDrivingModeStart. split; frame.
  - unfold onresult, setTimeout, clearAutoSendTimer, clearTimeout. split; frame.
  - split; reflexivity.
  - unfold onend. split; frame.
  - unfold handleSendMessage, sendMessage, sendFinish. split; frame.
  - unfold toggleListening, clearAutoSendTimer, clearTimeout. split; frame.
  - unfold handleDrivingModeStart. split; frame.
  - split; reflexivity.
  - split; reflexivity.
  - split; reflexivity.
  - split; reflexivity.
  - unfold changeDrivingMode, clearAutoSendTimer, clearTimeout. split; frame.
  - split; reflexivity.
Qed.

Lemma handleNewChat_sets s :
  seenMessageIds (refs (handleNewChat s)) = ∅
  /\ spokenMessageIds (refs (handleNewChat s)) = spokenMessageIds (refs s).
Proof. split; reflexivity. Qed.

Lemma step_spoken_mono e s :
  spokenMessageIds (refs s) ⊆ spokenMessageIds (refs (step e s)).
Proof.
  pose proof (step_sets e s) as H.
  destruct e; try (apply proj2 in H; rewrite H; reflexivity); simpl.
  - destruct (pollMessages_frame poll s) as (_ & _ & _ & _ & -> & _).
    destruct (shouldSpeak s); [apply collectUnspoken_mono|reflexivity].
  - reflexivity.
Qed.

Lemma step_seen_mono e s :
  e <> ClickNewChat ->
  seenMessageIds (refs s) ⊆ seenMessageIds (refs (step e s)).
Proof.
  intros Hne. pose proof (step_sets e s) as H.
  destruct e; try (apply proj1 in H; rewrite H; reflexivity); simpl.
  - destruct (pollMessages_frame poll s) as (_ & _ & _ & -> & _).
    apply dedupe_mono.
  - congruence.
Qed.





(** C9 (amended): the new-chat action empties [seenMessageIds] and leaves
    [spokenMessageIds] as it was; no other event removes an id from
    [seenMessageIds], and no event at all removes one from
    [spokenMessageIds]. *)
Theorem new_chat_clears_seen_only (e : Event) (s : State) :
  (seenMessageIds (refs (step ClickNewChat s)) = ∅
   /\ spokenMessageIds (refs (step ClickNewChat s)) = spokenMessageIds (refs s))
  /\ (e <> ClickNewChat ->
      seenMessageIds (refs s) ⊆ seenMessageIds (refs (step e s)))
  /\ spokenMessageIds (refs s) ⊆ spokenMessageIds (refs (step e s)).
Proof.
  split; [apply handleNewChat_sets|].
  split; [apply step_seen_mono|apply step_spoken_mono].
Qed.

(** The claim as first stated fails on [talkingState]: after the new-chat
    action the ids marked spoken are still there. *)
Lemma new_chat_keeps_spoken_ids :
  "t1" ∈ spokenMessageIds (refs (step ClickNewChat talkingState))
  /\ ~ (seenMessageIds (refs (step ClickNewChat talkingState)) = ∅
        /\ spokenMessageIds (refs (step ClickNewChat talkingState)) = ∅).
Proof.
  assert (H : "t1" ∈ spokenMessageIds (refs (step ClickNewChat talkingState))).
  { apply (bool_decide_unpack _). vm_compute. exact I. }
  split; [exact H|]. intros [_ E]. rewrite E in H.
  by apply not_elem_of_empty in H.
Qed.

(** ** The speech walk *)

Lemma walkFinally_releases d s :
  isSpeakingRef (refs (walkFinally d s)) = false
  /\ isPlaying (ui (walkFinally d s)) = false
  /\ walks (env (walkFinally d s)) = walks (env s)
  /\ speechCalls (effects (env (walkFinally d s)))
     = speechCalls (effects (env s)).
Proof.
  unfold walkFinally, setTimeout. repeat split; frame.
  rewrite speechCalls_app. simpl. by rewrite app_nil_r.
Qed.

(** The two ways out of the loop head. *)
Lemma walkLoop_exit w d msgs s :
  msgs = [] \/ cancelSpeechRef (refs s) = true ->
  walkLoop w d msgs s = walkFinally d s.
Proof.
  intros [->|H]; [reflexivity|]. unfold walkLoop.
  destruct msgs; [reflexivity|]. by rewrite H.
Qed.

Lemma walkLoop_suspend w d m rest s :
  cancelSpeechRef (refs s) = false ->
  let s' := walkLoop w d (m :: rest) s in
  walks (env s') = <[w := {| w_rest := rest; w_drivingMode := d |}]> (walks (env s))
  /\ effects (env s') = effects (env s) ++ [Speak (orElse (msg_speakText m) "")]
  /\ isSpeakingRef (refs s') = isSpeakingRef (refs s)
  /\ cancelSpeechRef (refs s') = cancelSpeechRef (refs s).
Proof. intros H. unfold walkLoop. rewrite H. simpl. by rewrite H. Qed.

Lemma walkLoop_walks w d msgs s x :
  x <> w ->
  walks (env (walkLoop w d msgs s)) !! x = walks (env s) !! x.
Proof.
  intros Hx. destruct msgs as [|m rest].
  { rewrite walkLoop_exit by (by left).
    by destruct (walkFinally_releases d s) as (_ & _ & -> & _). }
  destruct (cancelSpeechRef (refs s)) eqn:C.
  { rewrite walkLoop_exit by (by right).
    by destruct (walkFinally_releases d s) as (_ & _ & -> & _). }
  destruct (walkLoop_suspend w d m rest s C) as (-> & _).
  by rewrite lookup_insert_ne.
Qed.

Lemma speakSettled_other w resolved s x :
  x <> w ->
  walks (env (speakSettled w resolved s)) !! x = walks (env s) !! x.
Proof.
  intros Hx. unfold speakSettled.
  destruct (walks (env s) !! w) as [walk|]; [|reflexivity].
  rewrite walkLoop_walks by done. simpl.
  destruct resolved; simpl; by rewrite lookup_delete_ne.
Qed.

(** The walk either suspends at its first utterance or has already left
    through [finally]. *)
Lemma walkStart_cases u s :
  let s' := walkStart u s in
  match u with
  | m :: rest =>
      if cancelSpeechRef (refs s) then
        isSpeakingRef (refs s') = false /\ walks (env s') = walks (env s)
      else
        walks (env s')
        = <[nextWalk (env s) :=
              {| w_rest := rest; w_drivingMode := drivingMode (ui s) |}]>
            (walks (env s))
        /\ isSpeakingRef (refs s') = isSpeakingRef (refs s)
  | [] => isSpeakingRef (refs s') = false /\ walks (env s') = walks (env s)
  end.
Proof.
  unfold walkStart.
  set (t := setNextWalk _ s).
  destruct (walkPrelude_frame t) as (F & W & _ & L & _).
  destruct F as (_ & _ & _ & _ & _ & C & _).
  destruct u as [|m rest].
  { rewrite walkLoop_exit by (by left).
    destruct (walkFinally_releases (drivingMode (ui s)) (walkPrelude t))
      as (-> & _ & -> & _). by rewrite W. }
  destruct (cancelSpeechRef (refs s)) eqn:Cs.
  - rewrite walkLoop_exit by (right; by rewrite C).
    destruct (walkFinally_releases (drivingMode (ui s)) (walkPrelude t))
      as (-> & _ & -> & _). by rewrite W.
  - destruct (walkLoop_suspend (nextWalk (env s)) (drivingMode (ui s)) m rest
                (walkPrelude t)) as (-> & _ & -> & _).
    { by rewrite C. }
    by rewrite W, L.
Qed.

Lemma walkStart_keeps u s w :
  is_Some (walks (env s) !! w) -> is_Some (walks (env (walkStart u s)) !! w).
Proof.
  intros Hw. pose proof (walkStart_cases u s) as H. simpl in H.
  destruct u as [|m rest]; [destruct H as [_ ->]; done|].
  destruct (cancelSpeechRef (refs s)); destruct H as [H1 H2];
    rewrite ?H1, ?H2; [done|].
  apply lookup_insert_is_Some. destruct (decide (nextWalk (env s) = w)); auto.
Qed.

Lemma applyNewMessages_keeps nm s w :
  is_Some (walks (env s) !! w) ->
  is_Some (walks (env (applyNewMessages nm s)) !! w).
Proof.
  intros Hw. unfold applyNewMessages.
  destruct nm as [|m ms]; [done|].
  set (nm := m :: ms). cbv zeta.
  destruct (shouldSpeak _); [|by rewrite noteNewMessages_env].
  unfold speakNewMessages.
  destruct (collectUnspoken _ nm) as [u sp]; simpl.
  destruct u as [|u0 us]; [simpl; by rewrite noteNewMessages_env|].
  destruct (isSpeakingRef _); [simpl; by rewrite noteNewMessages_env|].
  apply walkStart_keeps. simpl. by rewrite noteNewMessages_env.
Qed.

(** A walk in flight stays in flight until its own speak promise settles. *)
Lemma step_keeps_walk e s w :
  is_Some (walks (env s) !! w) ->
  (forall resolved, e <> SpeakSettled w resolved) ->
  is_Some (walks (env (step e s)) !! w).
Proof.
  intros Hw Hne. destruct e; simpl.
  - unfold pollMessages.
    destruct (getMessages _ _ _ _) as [[[result svc] ls] eff].
    destruct result as [acts|msg]; simpl; [|done].
    destruct (dedupe _ acts) as [k seen]; simpl.
    destruct (mapActivities _ _ _ k) as [mapped n]; simpl.
    by apply applyNewMessages_keeps.
  - rewrite speakSettled_other; [done|]. intros ->. by apply (Hne resolved).
  - unfold sendSettled, sendFinish. frame.
  - unfold timerFired, fireTimer, sendMessage, sendFinish,
      handleDrivingModeStart. frame.
  - unfold onresult, setTimeout, clearAutoSendTimer, clearTimeout. frame.
  - done.
  - unfold onend. frame.
  - unfold handleSendMessage, sendMessage, sendFinish. frame.
  - unfold toggleListening, clearAutoSendTimer, clearTimeout. frame.
  - unfold handleDrivingModeStart. frame.
  - done.
  - done.
  - done.
  - done.
  - done.
  - unfold changeDrivingMode, clearAutoSendTimer, clearTimeout. frame.
  - done.
Qed.

(** One settlement of the awaited promise of a walk in flight. *)
Lemma speakSettled_cases s w walk resolved :
  walks (env s) !! w = Some walk ->
  let s' := speakSettled w resolved s in
  (resolved = false -> ConsoleError "Speech failed" ∈ effects (env s'))
  /\ match w_rest walk with
     | [] =>
         walks (env s') !! w = None /\ isSpeakingRef (refs s') = false
     | m :: rest =>
         if cancelSpeechRef (refs s) then
           walks (env s') !! w = None /\ isSpeakingRef (refs s') = false
         else
           walks (env s') !! w
           = Some {| w_rest := rest; w_drivingMode := w_drivingMode walk |}
           /\ speechCalls (effects (env s'))
              = speechCalls (effects (env s)) ++ [orElse (msg_speakText m) ""]
     end.
Proof.
  intros Hw. unfold speakSettled. rewrite Hw.
  set (t := if resolved then _ else _).
  assert (Ht : walks (env t) = delete w (walks (env s))
               /\ cancelSpeechRef (refs t) = cancelSpeechRef (refs s)
               /\ speechCalls (effects (env t)) = speechCalls (effects (env s))
               /\ (resolved = false ->
                   ConsoleError "Speech failed" ∈ effects (env t))).
  { subst t. destruct resolved; simpl; repeat split; try done.
    - rewrite speechCalls_app. simpl. by rewrite app_nil_r.
    - intros _. apply elem_of_app. right. by left. }
  destruct Ht as (Wt & Ct & St & Et).
  assert (Keep : forall msgs x,
            x ∈ effects (env t) ->
            x ∈ effects (env (walkLoop w (w_drivingMode walk) msgs t))).
  { intros msgs x Hx. unfold walkLoop, walkFinally, setTimeout.
    frame; apply elem_of_app; by left. }
  split; [intros R; apply Keep; by apply Et|].
  destruct (w_rest walk) as [|m rest].
  { rewrite walkLoop_exit by (by left).
    destruct (walkFinally_releases (w_drivingMode walk) t) as (-> & _ & -> & _).
    rewrite Wt. by rewrite lookup_delete_eq. }
  rewrite <- Ct. destruct (cancelSpeechRef (refs t)) eqn:C.
  - rewrite walkLoop_exit by (by right).
    destruct (walkFinally_releases (w_drivingMode walk) t) as (-> & _ & -> & _).
    rewrite Wt. by rewrite lookup_delete_eq.
  - destruct (walkLoop_suspend w (w_drivingMode walk) m rest t C)
      as (-> & -> & _).
    rewrite lookup_insert_eq, speechCalls_app, St. done.
Qed.

Lemma speakSettled_absent w resolved s :
  walks (env s) !! w = None -> speakSettled w resolved s = s.
Proof. intros Hw. unfold speakSettled. by rewrite Hw. Qed.

Lemma settleAll_cons w o os s :
  settleAll w (o :: os) s = settleAll w os (speakSettled w o s).
Proof. reflexivity. Qed.

Lemma settleAll_absent w outcomes s :
  walks (env s) !! w = None -> settleAll w outcomes s = s.
Proof.
  intros Hw. induction outcomes as [|o os IH]; [reflexivity|].
  by rewrite settleAll_cons, speakSettled_absent.
Qed.

Lemma settleAll_releases w outcomes : forall s walk,
  walks (env s) !! w = Some walk ->
  length (w_rest walk) < length outcomes ->
  walks (env (settleAll w outcomes s)) !! w = None
  /\ isSpeakingRef (refs (settleAll w outcomes s)) = false.
Proof.
  induction outcomes as [|o os IH]; intros s walk Hw Hlen; simpl in Hlen; [lia|].
  rewrite settleAll_cons.
  destruct (speakSettled_cases s w walk o Hw) as [_ H]. simpl in H.
  destruct (w_rest walk) as [|m rest] eqn:R.
  { destruct H as [H1 H2]. by rewrite settleAll_absent. }
  destruct (cancelSpeechRef (refs s)).
  { destruct H as [H1 H2]. by rewrite settleAll_absent. }
  destruct H as [H1 _].
  apply (IH _ _ H1). simpl in *. lia.
Qed.

(** C3: a speech walk leaves through [finally] on every path, and the
    speaking lock is released whenever it does.  For a walk suspended at
    [await speak]: when the promise settles, a rejection is caught and
    logged and the walk goes on; the walk leaves with the lock released if
    no message is left or the cancellation flag is set, and otherwise
    suspends on the next message.  Settling more promises than messages are
    left always ends the walk with the lock released; any event after which
    the walk is no longer in flight leaves the lock released; and a walk
    that is started either suspends on its first utterance or has released
    the lock already. *)
Theorem walk_exit_releases_lock (s : State) (w : nat) (walk : Walk) :
  walks (env s) !! w = Some walk ->
  (forall resolved,
     let s' := speakSettled w resolved s in
     (resolved = false -> ConsoleError "Speech failed" ∈ effects (env s'))
     /\ match w_rest walk with
        | [] =>
            walks (env s') !! w = None /\ isSpeakingRef (refs s') = false
        | m :: rest =>
            if cancelSpeechRef (refs s) then
              walks (env s') !! w = None /\ isSpeakingRef (refs s') = false
            else
              walks (env s') !! w
              = Some {| w_rest := rest; w_drivingMode := w_drivingMode walk |}
              /\ speechCalls (effects (env s'))
                 = speechCalls (effects (env s))
                   ++ [orElse (msg_speakText m) ""]
        end)
  /\ (forall outcomes,
        length (w_rest walk) < length outcomes ->
        walks (env (settleAll w outcomes s)) !! w = None
        /\ isSpeakingRef (refs (settleAll w outcomes s)) = false)
  /\ (forall e,
        walks (env (step e s)) !! w = None ->
        isSpeakingRef (refs (step e s)) = false)
  /\ (forall unspokenMessages,
        let s' := walkStart unspokenMessages s in
        is_Some (walks (env s') !! nextWalk (env s))
        \/ isSpeakingRef (refs s') = false).
Proof.
  intros Hw. split; [intros resolved; by apply speakSettled_cases|].
  split; [intros outcomes; by apply settleAll_releases|].
  split.
  - intros e Hgone.
    assert (D : (exists resolved, e = SpeakSettled w resolved)
                \/ forall resolved, e <> SpeakSettled w resolved).
    { destruct e; try (right; intros r; discriminate).
      destruct (decide (w0 = w)) as [->|Hw0]; [left; by exists resolved|].
      right. intros r E. congruence. }
    destruct D as [[resolved ->]|Hne].
    + simpl in *.
      destruct (speakSettled_cases s w walk resolved Hw) as [_ H]. simpl in H.
      destruct (w_rest walk) as [|m rest]; [by destruct H|].
      destruct (cancelSpeechRef (refs s)); [by destruct H|].
      destruct H as [H _]. congruence.
    + assert (K : is_Some (walks (env (step e s)) !! w)).
      { apply step_keeps_walk; [by rewrite Hw|exact Hne]. }
      rewrite Hgone in K. by destruct K.
  - intros u s'. subst s'. pose proof (walkStart_cases u s) as H. simpl in H.
    destruct u as [|m rest]; [right; by destruct H|].
    destruct (cancelSpeechRef (refs s)); [right; by destruct H|].
    left. destruct H as [-> _]. rewrite lookup_insert_eq. eauto.
Qed.

Lemma walk_exit_witness :
  walks (env talkingState) !! 0 = Some pendingWalk
  /\ walks (env (settleAll 0 [false; true] talkingState)) !! 0 = None
  /\ isSpeakingRef (refs (settleAll 0 [false; true] talkingState)) = false.
Proof.
  assert (H : walks (env talkingState) !! 0 = Some pendingWalk)
    by (vm_compute; reflexivity).
  destruct (walk_exit_releases_lock talkingState 0 pendingWalk H)
    as (_ & A & _).
  split; [exact H|]. apply (A [false; true]). simpl. lia.
Defined.

(** ** De-duplication of turns *)

Lemma hasContent_mapActivity r now a :
  hasContent (mapActivity r now a) = contentBearing a.
Proof. reflexivity. Qed.

Lemma orElse_truthy o d : truthyOpt o = true -> orElse o d = orElse o "".
Proof.
  destruct o as [x|]; simpl; [|done]. by intros ->.
Qed.

Lemma orElse_falsy o d : truthyOpt o = false -> orElse o d = d.
Proof.
  destruct o as [x|]; simpl; [|done]. by intros ->.
Qed.

Section Keyed.

(** The turn id under which the transcript is counted. *)
Variable i : string.

(** The id of a mapped message is the activity's key, or a random draw
    when the activity has no usable id. *)
Lemma msg_id_mapActivity r now a :
  i <> "" -> r <> i ->
  String.eqb (msg_id (mapActivity r now a)) i = String.eqb (messageKey a) i.
Proof.
  intros Hi Hr. simpl. unfold messageKey.
  destruct (truthyOpt (act_id a)) eqn:T.
  - by rewrite (orElse_truthy _ r T).
  - rewrite !orElse_falsy by done.
    transitivity false; [by apply String.eqb_neq|].
    symmetry. apply String.eqb_neq. congruence.
Qed.

Lemma countId_app a b : countId i (a ++ b) = countId i a + countId i b.
Proof. unfold countId. by rewrite List.filter_app, length_app. Qed.

Lemma countId_mapped rnd now : forall acts n,
  i <> "" -> (forall k, rnd k <> i) ->
  countId i (List.filter hasContent (fst (mapActivities rnd n now acts)))
  = length (List.filter contentBearing
              (List.filter (fun a => String.eqb (messageKey a) i) acts)).
Proof.
  induction acts as [|a rest IH]; intros n Hi Hr; [reflexivity|].
  simpl.
  destruct (mapActivities rnd _ now rest) as [msgs n'] eqn:E. simpl.
  specialize (IH (if truthyOpt (act_id a) then n else S n) Hi Hr).
  rewrite E in IH. simpl in IH.
  rewrite hasContent_mapActivity.
  destruct (String.eqb (messageKey a) i) eqn:K; simpl.
  - destruct (contentBearing a) eqn:C; simpl; [|exact IH].
    unfold countId in *. simpl.
    pose proof (msg_id_mapActivity (rnd n) now a Hi (Hr n)) as M.
    simpl in M. rewrite M, K. simpl. by rewrite IH.
  - destruct (contentBearing a) eqn:C; simpl; [|exact IH].
    unfold countId in *. simpl.
    pose proof (msg_id_mapActivity (rnd n) now a Hi (Hr n)) as M.
    simpl in M. rewrite M, K. exact IH.
Qed.

(** What the filter keeps under key [i]: nothing when the key has been
    seen, and otherwise the first activity so keyed. *)
Lemma dedupe_keyed : forall acts seen,
  List.filter (fun a => String.eqb (messageKey a) i) (fst (dedupe seen acts))
  = if bool_decide (i ∈ seen) then []
    else match firstKeyed i acts with
         | Some a => [a]
         | None => []
         end.
Proof.
  induction acts as [|a rest IH]; intros seen; cbn [dedupe].
  { simpl. by destruct (bool_decide _). }
  destruct (bool_decide (messageKey a ∈ seen)) eqn:E.
  - apply bool_decide_eq_true in E. rewrite IH.
    destruct (bool_decide (i ∈ seen)) eqn:I; [done|].
    apply bool_decide_eq_false in I.
    assert (K : String.eqb (messageKey a) i = false).
    { apply String.eqb_neq. intros H. by rewrite H in E. }
    unfold firstKeyed. cbn [List.find]. by rewrite K.
  - apply bool_decide_eq_false in E.
    destruct (dedupe _ rest) as [k seen'] eqn:D. cbn [fst].
    specialize (IH ({[messageKey a]} ∪ seen)). rewrite D in IH. cbn [fst] in IH.
    unfold firstKeyed in *. cbn [List.find List.filter].
    destruct (String.eqb (messageKey a) i) eqn:K.
    + apply String.eqb_eq in K. subst i. rewrite IH.
      rewrite bool_decide_eq_true_2 by (apply elem_of_union_l; by apply elem_of_singleton).
      by rewrite bool_decide_eq_false_2.
    + rewrite IH. apply String.eqb_neq in K.
      destruct (bool_decide (i ∈ seen)) eqn:I.
      * apply bool_decide_eq_true in I.
        by rewrite bool_decide_eq_true_2 by (by apply elem_of_union_r).
      * apply bool_decide_eq_false in I.
        rewrite bool_decide_eq_false_2; [done|].
        intros H. apply elem_of_union in H as [H|H]; [|done].
        apply elem_of_singleton in H. congruence.
Qed.

Lemma countId_newMessagesOf poll s :
  i <> "" -> (forall k, random (env s) k <> i) ->
  countId i (newMessagesOf poll s)
  = growth i (seenMessageIds (refs s)) (received poll s).
Proof.
  intros Hi Hr. unfold newMessagesOf, kept, growth.
  rewrite countId_mapped by done. rewrite dedupe_keyed.
  destruct (bool_decide _); [done|].
  destruct (firstKeyed _ _) as [a|]; [|done].
  simpl. by destruct (contentBearing a).
Qed.

(** The source of random ids is never replaced. *)
Lemma step_random e s : random (env (step e s)) = random (env s).
Proof.
  destruct e; simpl.
  - by destruct (pollMessages_frame poll s) as (_ & _ & _ & _ & _ & _ & ->).
  - unfold speakSettled. destruct (walks (env s) !! w); [|done].
    match goal with |- context [walkLoop ?a ?b ?c ?t] =>
      destruct (walkLoop_frame a b c t) as (_ & _ & _ & _ & _ & _ & _ & _ & _ & -> & _)
    end. frame.
  - unfold sendSettled, sendFinish. frame.
  - unfold timerFired, fireTimer, sendMessage, sendFinish,
      handleDrivingModeStart. frame.
  - unfold onresult, setTimeout, clearAutoSendTimer, clearTimeout. frame.
  - done.
  - unfold onend. frame.
  - unfold handleSendMessage, sendMessage, sendFinish. frame.
  - unfold toggleListening, clearAutoSendTimer, clearTimeout. frame.
  - unfold handleDrivingModeStart. frame.
  - done.
  - done.
  - done.
  - done.
  - done.
  - unfold changeDrivingMode, clearAutoSendTimer, clearTimeout. frame.
  - done.
Qed.

(** [sendMessage] adds at most one entry, whose id is a random draw. *)
Lemma sendMessage_countId text seen auto s :
  (forall k, random (env s) k <> i) ->
  countId i (messages (ui (sendMessage text seen auto s)))
  = countId i (messages (ui s)).
Proof.
  intros Hr. unfold sendMessage, sendFinish.
  assert (K : String.eqb (random (env s) (randomCalls (env s))) i = false)
    by (by apply String.eqb_neq).
  frame; rewrite countId_app; unfold countId at 2; simpl; rewrite K; simpl; lia.
Qed.

(** Outside the poll and the new-chat button, the number of transcript
    entries under a non-random id does not change. *)
Lemma step_countId e s :
  (forall k, random (env s) k <> i) ->
  match e with
  | PollTick _ | ClickNewChat => True
  | _ => countId i (messages (ui (step e s))) = countId i (messages (ui s))
  end.
Proof.
  intros Hr. destruct e; try exact I; simpl.
  - unfold speakSettled. destruct (walks (env s) !! w); [|done].
    match goal with |- context [walkLoop ?a ?b ?c ?t] =>
      destruct (walkLoop_frame a b c t) as (-> & _)
    end. frame.
  - unfold sendSettled, sendFinish. frame.
  - unfold timerFired, fireTimer. destruct (timers (env s) !! h) as [t|]; [|done].
    destruct (t_action t); simpl; try done.
    + rewrite sendMessage_countId; frame.
    + unfold handleDrivingModeStart. frame.
    + frame.
  - unfold onresult, setTimeout, clearAutoSendTimer, clearTimeout. frame.
  - done.
  - unfold onend. frame.
  - unfold handleSendMessage. destruct (truthy _); [|done].
    by apply sendMessage_countId.
  - unfold toggleListening, clearAutoSendTimer, clearTimeout. frame.
  - unfold handleDrivingModeStart. frame.
  - done.
  - done.
  - done.
  - done.
  - unfold changeDrivingMode, clearAutoSendTimer, clearTimeout. frame.
  - done.
Qed.

Lemma run_cons e es s : run (e :: es) s = run es (step e s).
Proof. reflexivity. Qed.

Lemma firstKeyed_app a b :
  firstKeyed i (a ++ b)
  = match firstKeyed i a with
    | Some x => Some x
    | None => firstKeyed i b
    end.
Proof.
  unfold firstKeyed. induction a as [|x a IH]; [reflexivity|].
  cbn [List.find app]. by destruct (String.eqb (messageKey x) i).
Qed.

Lemma firstKeyed_None acts :
  firstKeyed i acts = None <-> i ∉ List.map messageKey acts.
Proof.
  unfold firstKeyed. induction acts as [|x acts IH]; cbn [List.find List.map].
  { split; [intros _ H; by apply elem_of_nil in H|done]. }
  destruct (String.eqb (messageKey x) i) eqn:K.
  - apply String.eqb_eq in K. split; [done|]. intros H. exfalso. apply H.
    rewrite K. by left.
  - apply String.eqb_neq in K. rewrite IH. split.
    + intros H H'. apply elem_of_cons in H' as [H'|H']; [congruence|done].
    + intros H H'. apply H. by right.
Qed.

Lemma firstKeyed_Some acts a :
  firstKeyed i acts = Some a -> a ∈ acts /\ messageKey a = i.
Proof.
  unfold firstKeyed. intros H. apply List.find_some in H as [H1 H2].
  split; [by apply list_elem_of_In|by apply String.eqb_eq].
Qed.

(** The growth of one cycle followed by the growth of the cycles after it
    is the growth over all of them. *)
Lemma growth_split seen acts later :
  growth i seen acts + growth i (snd (dedupe seen acts)) later
  = growth i seen (acts ++ later).
Proof.
  unfold growth. rewrite firstKeyed_app.
  destruct (bool_decide (i ∈ seen)) eqn:I.
  - apply bool_decide_eq_true in I.
    by rewrite bool_decide_eq_true_2 by (by apply dedupe_mono).
  - apply bool_decide_eq_false in I.
    destruct (firstKeyed i acts) as [a|] eqn:F.
    + apply firstKeyed_Some in F as [Ha Hk].
      rewrite bool_decide_eq_true_2; [lia|].
      apply dedupe_seen. right. rewrite <- Hk.
      apply list_elem_of_fmap. by exists a.
    + apply firstKeyed_None in F.
      rewrite bool_decide_eq_false_2; [done|].
      intros H. apply dedupe_seen in H as [H|H]; done.
Qed.

(** The transcript entries under [i] after a run without new-chat clicks. *)
Lemma run_countId es : forall s,
  i <> "" -> (forall k, random (env s) k <> i) -> ClickNewChat ∉ es ->
  countId i (messages (ui (run es s)))
  = countId i (messages (ui s))
    + growth i (seenMessageIds (refs s)) (receivedLog es s).
Proof.
  induction es as [|e rest IH]; intros s Hi Hr Hn.
  { simpl. unfold growth. destruct (bool_decide _); simpl; lia. }
  rewrite run_cons.
  assert (Hn' : ClickNewChat ∉ rest) by (intros H; apply Hn; by right).
  assert (He : e <> ClickNewChat) by (intros ->; apply Hn; by left).
  rewrite IH; [|done| |done].
  2:{ intros k. rewrite step_random. apply Hr. }
  pose proof (step_countId e s Hr) as C.
  pose proof (step_sets e s) as S.
  destruct e; try (apply proj1 in S; rewrite S, C; reflexivity);
    [|congruence].
  cbn [receivedLog step].
  destruct (pollMessages_frame poll s) as (-> & _ & _ & -> & _).
  rewrite countId_app, countId_newMessagesOf by done.
  rewrite <- growth_split. lia.
Qed.


End Keyed.

Lemma dedupe_kept_fresh : forall acts seen a,
  a ∈ fst (dedupe seen acts) -> a ∈ acts /\ messageKey a ∉ seen.
Proof.
  induction acts as [|x rest IH]; intros seen a; cbn [dedupe].
  { intros H. by apply elem_of_nil in H. }
  destruct (bool_decide (messageKey x ∈ seen)) eqn:E.
  - intros H. apply IH in H as [H1 H2]. split; [by right|done].
  - apply bool_decide_eq_false in E.
    destruct (dedupe _ rest) as [k seen'] eqn:D. cbn [fst].
    specialize (IH ({[messageKey x]} ∪ seen) a). rewrite D in IH. cbn [fst] in IH.
    intros H. apply elem_of_cons in H as [->|H]; [split; [by left|done]|].
    apply IH in H as [H1 H2]. split; [by right|].
    intros H3. apply H2. by apply elem_of_union_r.
Qed.

(** C4: along any sequence of events without a new-chat click, an activity
    whose id is already in [seenMessageIds] is skipped by the poll cycle,
    and the transcript gains at most one entry under a given turn id [i]
    (non-empty and never drawn as a random id): none if [i] was already
    seen, and exactly one if [i] was new, some poll delivered a turn with
    that id, and the turns delivered under it bear content, however often
    and in whichever cycles they are delivered. *)
Theorem turn_id_materialized_once (s : State) (es : list Event) (i : string) :
  i <> "" ->
  (forall k, random (env s) k <> i) ->
  ClickNewChat ∉ es ->
  let before := countId i (messages (ui s)) in
  let after := countId i (messages (ui (run es s))) in
  (forall poll a, a ∈ kept poll s -> messageKey a ∉ seenMessageIds (refs s))
  /\ (i ∈ seenMessageIds (refs s) -> after = before)
  /\ after <= before + 1
  /\ (i ∉ seenMessageIds (refs s) ->
      (exists a, a ∈ receivedLog es s /\ messageKey a = i) ->
      (forall a, a ∈ receivedLog es s -> messageKey a = i ->
                 contentBearing a = true) ->
      after = before + 1).
Proof.
  intros Hi Hr Hn before after. subst before after.
  rewrite (run_countId i es s Hi Hr Hn). unfold growth.
  split; [intros poll a Ha; by apply dedupe_kept_fresh in Ha as [_ ?]|].
  split; [intros Hs; rewrite bool_decide_eq_true_2 by done; lia|].
  split.
  - destruct (bool_decide _); [lia|].
    destruct (firstKeyed _ _) as [a|]; [|lia]. destruct (contentBearing a); lia.
  - intros Hs [a [Ha Hk]] Hc. rewrite bool_decide_eq_false_2 by done.
    destruct (firstKeyed i (receivedLog es s)) as [a'|] eqn:F.
    + apply firstKeyed_Some in F as [Ha' Hk']. by rewrite (Hc a' Ha' Hk').
    + apply firstKeyed_None in F. exfalso. apply F. rewrite <- Hk.
      apply list_elem_of_fmap. by exists a.
Qed.

Lemma same_turn_twice_witness :
  "t1" <> ""
  /\ (ClickNewChat ∉ [PollTick twoTurns; PollTick twoTurns])
  /\ countId "t1"
       (messages (ui (run [PollTick twoTurns; PollTick twoTurns] sampleState)))
     = 1.
Proof.
  assert (N : ClickNewChat ∉ [PollTick twoTurns; PollTick twoTurns]).
  { intros H. apply list_elem_of_In in H. simpl in H.
    destruct H as [H|[H|[]]]; discriminate. }
  assert (R : forall k, random (env sampleState) k <> "t1")
    by (intros k; discriminate).
  destruct (turn_id_materialized_once sampleState
              [PollTick twoTurns; PollTick twoTurns] "t1"
              ltac:(discriminate) R N) as (_ & _ & _ & E).
  split; [discriminate|]. split; [exact N|].
  apply E.
  - apply not_elem_of_empty.
  - exists (botText "t1" "Hello"). split; [|reflexivity].
    apply list_elem_of_In. vm_compute. left. reflexivity.
  - intros a Ha _. apply list_elem_of_In in Ha. vm_compute in Ha.
    destruct Ha as [<-|[<-|[<-|[<-|[]]]]]; reflexivity.
Defined.

(** ** Activities without an id *)





(** ** The watermark cursor *)















(** ** Reconnection *)




(** ** Noise rejection and auto-send *)









(** ** The mapper *)

Lemma orElse_empty_truthy o : truthy (orElse o "") = truthyOpt o.
Proof.
  destruct o as [x|]; simpl; [|done]. by destruct (truthy x) eqn:E.
Qed.

Lemma nonEmptyBody_texts card sep :
  match nonEmptyBody card with
  | Some body => array_join sep (bodyTexts body)
  | None => ""
  end
  = array_join sep (bodyTexts (default [] (card_body card))).
Proof.
  unfold nonEmptyBody. destruct (card_body card) as [[|item items]|]; done.
Qed.

(** C8 (amended): for every turn whose first attachment is an adaptive card
    with content, the mapped message carries the card; its display text is
    the turn's text when that is non-empty and otherwise the card body's
    non-empty text elements joined with single spaces; its speakable text
    is the card's [speak] field when that is non-empty, otherwise the body's
    text elements joined with ". " when that is non-empty, and otherwise
    the display text.  A turn with no text whose mapped message is neither
    a sign-in card nor carries an adaptive card has no content, so the
    final filter drops it. *)
Theorem adaptive_card_mapping (r : string) (now : Z) (activity : Activity) :
  let m := mapActivity r now activity in
  (forall attachment others card,
     act_attachments activity = Some (attachment :: others) ->
     att_contentType attachment = CARD_ADAPTIVE ->
     att_content attachment = Some card ->
     let texts := bodyTexts (default [] (card_body card)) in
     msg_adaptiveCard m = Some card
     /\ msg_text m
        = (if truthyOpt (act_text activity) then orElse (act_text activity) ""
           else array_join " " texts)
     /\ msg_speakText m
        = Some (if truthyOpt (card_speak card) then orElse (card_speak card) ""
                else if truthy (array_join ". " texts)
                     then array_join ". " texts
                     else msg_text m))
  /\ (truthyOpt (act_text activity) = false ->
      msg_isSignInCard m = Some false ->
      msg_adaptiveCard m = None ->
      hasContent m = false).
Proof.
  intros m. subst m. split.
  - intros attachment others card Ha Ht Hc texts. subst texts.
    unfold mapActivity, extract. rewrite Ha, Ht, Hc.
    change (String.eqb CARD_ADAPTIVE CARD_OAUTH
            || String.eqb CARD_ADAPTIVE CARD_SIGNIN) with false.
    change (String.eqb CARD_ADAPTIVE CARD_ADAPTIVE) with true. cbv iota.
    cbn [msg_adaptiveCard msg_text msg_speakText messageText speakText adaptiveCard].
    rewrite orElse_empty_truthy.
    pose proof (nonEmptyBody_texts card " ") as J1.
    pose proof (nonEmptyBody_texts card ". ") as J2.
    split; [done|]. split.
    + destruct (truthyOpt (act_text activity)) eqn:T; cbn [negb]; [done|].
      rewrite <- J1. destruct (nonEmptyBody card); [done|].
      by rewrite orElse_falsy.
    + f_equal. destruct (truthyOpt (card_speak card)) eqn:S.
      * rewrite <- (orElse_empty_truthy (card_speak card)) in S. by rewrite S.
      * rewrite <- J2. destruct (nonEmptyBody card); [done|]. reflexivity.
  - intros Ht Hs Hc. unfold hasContent. rewrite Hs, Hc.
    unfold mapActivity in *. cbn [msg_text msg_isSignInCard msg_adaptiveCard] in *.
    injection Hs as Hs.
    unfold extract in *.
    destruct (act_attachments activity) as [[|attachment others]|];
      cbn [messageText plainText]; rewrite ?orElse_empty_truthy, ?Ht; try done.
    destruct (String.eqb _ CARD_OAUTH || String.eqb _ CARD_SIGNIN);
      [discriminate|].
    destruct (att_content attachment) as [card|];
      cbn [messageText plainText]; rewrite ?orElse_empty_truthy, ?Ht; try done.
    destruct (String.eqb _ CARD_ADAPTIVE); [discriminate|].
    cbn [messageText plainText]. by rewrite orElse_empty_truthy, Ht.
Qed.

(** The claim as first stated fails on [pictureCard]: its card has no
    [speak] field and its body no text element, so the body's texts join
    to the empty string, yet the message speaks the display text. *)
Lemma picture_card_speaks_display_text :
  act_attachments pictureCard
  = Some [{| att_contentType := CARD_ADAPTIVE;
             att_content :=
               Some {| card_buttons := None;
                       card_body := Some [{| item_text := None |}];
                       card_speak := None |} |}]
  /\ array_join ". " (bodyTexts [{| item_text := None |}]) = ""
  /\ msg_speakText (mapActivity "0.5" 0 pictureCard)
     = Some "Here is the picture"
  /\ msg_speakText (mapActivity "0.5" 0 pictureCard)
     <> Some (array_join ". " (bodyTexts [{| item_text := None |}])).
Proof. repeat split. discriminate. Qed.

(** ** Further properties *)


(** X2: the stop button releases the speaking lock without ending a walk
    that is suspended at [await speak]: the walk stays in flight, so after
    play a later poll acquires the lock and starts a second walk beside
    it. *)
Theorem stop_releases_lock_mid_walk (s : State) (w : nat) (walk : Walk) :
  walks (env s) !! w = Some walk ->
  walks (env (step ClickStop s)) !! w = Some walk
  /\ isSpeakingRef (refs (step ClickStop s)) = false
  /\ isMuted (ui (step ClickStop s)) = true
  /\ isSpeakingRef (refs (step ClickPlay (step ClickStop s))) = false
  /\ walks (env (step ClickPlay (step ClickStop s))) !! w = Some walk.
Proof. intros H. repeat split; exact H. Qed.

Lemma two_walks_witness :
  walks (env talkingState) !! 0 = Some pendingWalk
  /\ walks (env (step ClickStop talkingState)) !! 0 = Some pendingWalk
  /\ isSpeakingRef (refs (step ClickStop talkingState)) = false
  /\ size (walks (env (run stopPlayPoll talkingState))) = 2
  /\ speechCalls (effects (env (run stopPlayPoll talkingState)))
     = ["Hello"; "Anything else?"].
Proof.
  assert (H : walks (env talkingState) !! 0 = Some pendingWalk)
    by (vm_compute; reflexivity).
  destruct (stop_releases_lock_mid_walk talkingState 0 pendingWalk H)
    as (A & B & _).
  split; [exact H|]. split; [exact A|]. split; [exact B|].
  split; vm_compute; reflexivity.
Defined.

(** X3: a stored conversation cursor is used only while it is younger than
    thirty minutes; an older one is removed from storage and treated as
    absent. *)
Theorem cursor_expires_after_thirty_minutes (now : Z) (ls : LocalStorage)
    (saved : ConversationState) :
  ls_conversation ls = Some saved ->
  let '(loaded, ls', eff) := loadConversationState now ls in
  CONVERSATION_EXPIRY_MS = 1800000%Z
  /\ ((now - cs_savedAt saved < CONVERSATION_EXPIRY_MS)%Z ->
      loaded = Some saved /\ ls' = ls /\ eff = [])
  /\ ((CONVERSATION_EXPIRY_MS <= now - cs_savedAt saved)%Z ->
      loaded = None /\ ls_conversation ls' = None
      /\ eff = [StorageRemove KEY_CONVERSATION]).
Proof.
  intros H. unfold loadConversationState. rewrite H. cbv zeta.
  destruct (Z.ltb_spec (now - cs_savedAt saved) CONVERSATION_EXPIRY_MS);
    cbn; (split; [reflexivity|]); split; intros ?; try lia; repeat split.
Qed.

Lemma cursor_expiry_witness :
  ls_conversation savedStorage
  = Some {| cs_conversationId := "old-conv"; cs_watermark := Some "7";
            cs_savedAt := 0 |}
  /\ fst (fst (loadConversationState 1799999 savedStorage))
     = ls_conversation savedStorage
  /\ fst (fst (loadConversationState 1800000 savedStorage)) = None.
Proof.
  pose proof (cursor_expires_after_thirty_minutes 1800000 savedStorage _
                eq_refl) as H.
  vm_compute in H. destruct H as (_ & _ & H).
  destruct (H ltac:(discriminate)) as (L & _).
  split; [reflexivity|]. split; [reflexivity|exact L].
Defined.

(** X4: a successful [getMessages] hands the poll cycle exactly the
    returned activities that are not from the user, are of type message and
    carry no silent-greeting mark, in the order returned. *)
Theorem getMessages_keeps_bot_messages (s : State) (cid : string)
    (poll : Fetched ActivitySet) (data : ActivitySet) :
  conversationId (chatService (env s)) = Some cid ->
  succeeded poll = Some data ->
  received poll s = List.filter isBotMessage (activities data)
  /\ (forall a,
        isBotMessage a = true
        <-> act_from a <> "user" /\ act_type a = "message"
            /\ act_silentGreeting a <> Some true).
Proof.
  intros Hc Hs. split.
  - unfold received, getMessages. rewrite Hc.
    unfold succeeded in Hs. destruct poll as [response|]; [|discriminate].
    destruct (ok response); [|discriminate]. rewrite Hs.
    by destruct (notifyStateChange _ _ _ _).
  - intros a. unfold isBotMessage.
    destruct (String.eqb_spec (act_from a) "user") as [E|E].
    { split; [discriminate|]. intros [H _]. done. }
    destruct (String.eqb_spec (act_type a) "message") as [T|T]; cbn [negb].
    2:{ split; [discriminate|]. intros (_ & H & _). done. }
    destruct (act_silentGreeting a) as [[]|]; split; try done.
    intros (_ & _ & H). done.
Qed.

Lemma bot_messages_witness :
  conversationId (chatService (env sampleState)) = Some "conv-1"
  /\ received (okPoll [userTurn; botText "t1" "Hello"] "1") sampleState
     = [botText "t1" "Hello"].
Proof.
  destruct (getMessages_keeps_bot_messages sampleState "conv-1"
              (okPoll [userTurn; botText "t1" "Hello"] "1")
              {| activities := [userTurn; botText "t1" "Hello"];
                 set_watermark := "1" |} eq_refl eq_refl) as (R & _).
  split; [reflexivity|]. rewrite R. reflexivity.
Defined.

(** X5: outside driving mode a recognition result, noisy or not, final or
    not, is placed in the input field and ends listening; nothing is
    scheduled and nothing is sent. *)
Theorem dictation_fills_the_input_field (s : State)
    (event : RecognitionResult) :
  drivingMode (ui s) = false ->
  let s' := onresult event s in
  inputText (ui s') = transcript event
  /\ isListening (ui s') = false
  /\ messages (ui s') = messages (ui s)
  /\ env s' = env s
  /\ refs s' = refs s.
Proof. intros H. unfold onresult. rewrite H. repeat split. Qed.

Lemma dictation_witness :
  drivingMode (ui sampleState) = false
  /\ inputText (ui (onresult lights sampleState)) = "turn on the lights"
  /\ timers (env (onresult lights sampleState)) = ∅.
Proof.
  destruct (dictation_fills_the_input_field sampleState lights eq_refl)
    as (I & _ & _ & E & _).
  split; [reflexivity|]. split; [exact I|]. rewrite E. reflexivity.
Defined.
